(** * Verification of the URL pagination resolver and the email harvester
    of the web scraper ([pagination.py], [email_extractor.py]).

    The Python code relies on [re.search] / [re.match] with a handful of
    simple patterns.  We embed those patterns in a small backtracking
    matcher ([Regex]) whose alternatives are listed in the order Python's
    engine tries them (greedy repetition first), so the first successful
    alternative is the match Python reports. *)

From Stdlib Require Import ZArith List Bool Ascii String Lia DecimalString.
Import ListNotations.
Open Scope bool_scope.

Module Regex.

(** Pattern items: the fragments of Python's regex syntax used by the
    source.  A pattern has at most one capturing group. *)
Inductive item : Type :=
| Chr (c : ascii)              (* a literal character *)
| Cls (f : ascii -> bool)      (* [...] : one character of a class *)
| OptChr (c : ascii)           (* c?  (greedy) *)
| Plus (f : ascii -> bool)     (* [...]+ (greedy) *)
| Group (f : ascii -> bool)    (* ([...]+) captured (greedy) *)
| Eol.                         (* $ without MULTILINE *)

Definition pattern := list item.

(** Non-empty prefixes of [s] made of characters of class [f], longest
    first (greedy order), each with the remaining input. *)
Fixpoint spans (f : ascii -> bool) (s : list ascii)
  : list (list ascii * list ascii) :=
  match s with
  | [] => []
  | c :: s' =>
      if f c
      then map (fun '(t, r) => (c :: t, r)) (spans f s') ++ [([c], s')]
      else []
  end.

Definition newline : ascii := Ascii.ascii_of_nat 10.

(** Python's [$] matches at the end of the string and also just before a
    newline that ends the string. *)
Definition at_eol (s : list ascii) : bool :=
  match s with
  | [] => true
  | [c] => Ascii.eqb c newline
  | _ => false
  end.

(** One item: its alternatives, in backtracking order, as pairs of
    remaining input and (for a group) the captured text. *)
Definition step (it : item) (s : list ascii)
  : list (list ascii * option (list ascii)) :=
  match it with
  | Chr c =>
      match s with
      | x :: s' => if Ascii.eqb x c then [(s', None)] else []
      | [] => []
      end
  | Cls f =>
      match s with
      | x :: s' => if f x then [(s', None)] else []
      | [] => []
      end
  | OptChr c =>
      match s with
      | x :: s' => if Ascii.eqb x c then [(s', None); (s, None)] else [(s, None)]
      | [] => [(s, None)]
      end
  | Plus f => map (fun '(_, r) => (r, None)) (spans f s)
  | Group f => map (fun '(t, r) => (r, Some t)) (spans f s)
  | Eol => if at_eol s then [(s, None)] else []
  end.

(** All ways to match a sequence of items at the front of [s]. *)
Fixpoint runs (p : pattern) (s : list ascii) (cap : option (list ascii))
  : list (list ascii * option (list ascii)) :=
  match p with
  | [] => [(s, cap)]
  | it :: p' =>
      flat_map (fun '(s', c) =>
                  runs p' s' (match c with Some g => Some g | None => cap end))
               (step it s)
  end.

(** [re.match]: the first successful alternative at position 0; the
    result carries group 1 (if the pattern has one). *)
Definition match_at (p : pattern) (s : list ascii) : option (option (list ascii)) :=
  match runs p s None with
  | [] => None
  | (_, cap) :: _ => Some cap
  end.

(** [re.search]: leftmost position (0 .. len s) where [match_at] succeeds. *)
Fixpoint search (p : pattern) (s : list ascii) : option (option (list ascii)) :=
  match match_at p s with
  | Some c => Some c
  | None =>
      match s with
      | [] => None
      | _ :: s' => search p s'
      end
  end.

Definition lit (s : string) : pattern := map Chr (list_ascii_of_string s).

(** Substring test, Python's [needle in hay]. *)
Fixpoint prefixb (n h : list ascii) : bool :=
  match n, h with
  | [], _ => true
  | c :: n', d :: h' => Ascii.eqb c d && prefixb n' h'
  | _ :: _, [] => false
  end.

Fixpoint contains (n h : list ascii) : bool :=
  prefixb n h || match h with [] => false | _ :: h' => contains n h' end.

End Regex.

Import Regex.

Module Pagination.

Definition is_digit (c : ascii) : bool :=
  (48 <=? nat_of_ascii c)%nat && (nat_of_ascii c <=? 57)%nat.

Definition is_alpha (c : ascii) : bool :=
  let n := nat_of_ascii c in
  ((65 <=? n)%nat && (n <=? 90)%nat) || ((97 <=? n)%nat && (n <=? 122)%nat).

Definition one_of (cs : string) (c : ascii) : bool :=
  existsb (Ascii.eqb c) (list_ascii_of_string cs).

(** [int(...)] of a run of ASCII digits. *)
Definition digits_value (ds : list ascii) : Z :=
  fold_left (fun acc c => acc * 10 + (Z.of_nat (nat_of_ascii c) - 48))%Z ds 0%Z.

(** [r'[?&]key=(\d+)'] *)
Definition qparam (key : string) : pattern :=
  Cls (one_of "?&") :: lit key ++ lit "=" ++ [Group is_digit].

(** A literal marker followed by [(\d+)], e.g. [r'/page/(\d+)']. *)
Definition marker (m : string) : pattern := lit m ++ [Group is_digit].

(** [r'[\-_](\d+)\.html'] *)
Definition dash_html : pattern := Cls (one_of "-_") :: Group is_digit :: lit ".html".

(** [r'/(\d+)/?$']: the bare trailing number. *)
Definition bare_trailing_number : pattern :=
  [Chr "/"; Group is_digit; OptChr "/"; Eol]%char.

(** [r'page(\d+)\.html'] *)
Definition page_html : pattern := lit "page" ++ Group is_digit :: lit ".html".

(** [r'p(\d+)\.html'] *)
Definition p_html : pattern := lit "p" ++ Group is_digit :: lit ".html".

(** The pattern catalog of [extract_page_number], in source order. *)
Definition patterns : list pattern :=
  [ qparam "page"; qparam "p"; qparam "pg"; qparam "paged";
    qparam "paging"; qparam "pp"; qparam "pagina"; qparam "seite";
    qparam "pagine"; qparam "pagination"; qparam "current"; qparam "offset";
    marker "/page/"; marker "/p/"; marker "/paged/"; marker "/pages/";
    marker "-page-"; marker "_page_"; marker "-p-"; marker "_p_";
    dash_html; bare_trailing_number; page_html; p_html ].

(** The loop over [patterns]: the first pattern that matches wins. *)
Fixpoint first_match (ps : list pattern) (s : list ascii) : option Z :=
  match ps with
  | [] => None
  | p :: ps' =>
      match search p s with
      | Some (Some ds) => Some (digits_value ds)
      | _ => first_match ps' s
      end
  end.

Definition extract_page_number (url : string) : option Z :=
  first_match patterns (list_ascii_of_string url).

(** [r'^https?://[^/]+/?$'] used with [re.match]. *)
Definition root_pattern : pattern :=
  lit "http" ++ [OptChr "s"] ++ lit "://" ++
  [Plus (fun c => negb (Ascii.eqb c "/"%char)); OptChr "/"%char; Eol].

(** [r'/$|/index\.(?:html|php|asp|jsp)$'], one pattern per alternative;
    [re.search] succeeds iff one of them matches somewhere. *)
Definition index_patterns : list pattern :=
  [ [Chr "/"%char; Eol];
    lit "/index.html" ++ [Eol]; lit "/index.php" ++ [Eol];
    lit "/index.asp" ++ [Eol]; lit "/index.jsp" ++ [Eol] ].

Definition is_some {A} (o : option A) : bool :=
  match o with Some _ => true | None => false end.

(** Python's [page_number == n] on an [Optional[int]]. *)
Definition page_is (o : option Z) (n : Z) : bool :=
  match o with Some k => Z.eqb k n | None => false end.

Definition pagination_markers : list string := ["page="; "/page/"; "?p="; "&p="]%string.

Definition is_likely_first_page (url : string) : bool :=
  let s := list_ascii_of_string url in
  if page_is (extract_page_number url) 1 then true
  else if is_some (match_at root_pattern s) then true
  else if existsb (fun p => is_some (search p s)) index_patterns then true
  else if negb (existsb (fun m => contains (list_ascii_of_string m) s)
                        pagination_markers) then true
  else false.

(** [start_page <= page_number <= end_page], or [page_number >= start_page]
    when [end_page is None]. *)
Definition in_range (start_page : Z) (end_page : option Z) (n : Z) : bool :=
  match end_page with
  | Some e => Z.leb start_page n && Z.leb n e
  | None => Z.leb start_page n
  end.

(** The loop of [filter_urls_by_page_range]; [seen] is
    [seen_page_numbers]. *)
Fixpoint filter_range_loop (start_page : Z) (end_page : option Z)
         (seen : list Z) (urls : list string) : list string :=
  match urls with
  | [] => []
  | url :: rest =>
      match extract_page_number url with
      | Some n =>
          if existsb (Z.eqb n) seen then filter_range_loop start_page end_page seen rest
          else if in_range start_page end_page n
          then url :: filter_range_loop start_page end_page (n :: seen) rest
          else filter_range_loop start_page end_page seen rest
      | None => url :: filter_range_loop start_page end_page seen rest
      end
  end.

Definition filter_urls_by_page_range (urls : list string) (start_page : Z)
           (end_page : option Z) : list string :=
  filter_range_loop start_page end_page [] urls.

Definition mem (u : string) (l : list string) : bool := existsb (String.eqb u) l.

(** Order-preserving removal of duplicates ([seen_urls] in
    [paginate_urls]). *)
Fixpoint dedup_loop (seen : list string) (l : list string) : list string :=
  match l with
  | [] => []
  | u :: rest =>
      if mem u seen then dedup_loop seen rest else u :: dedup_loop (u :: seen) rest
  end.

Definition dedup (l : list string) : list string := dedup_loop [] l.

(** [original_has_page_1] of [paginate_urls]. *)
Definition original_has_page_1 (urls : list string) : bool :=
  existsb is_likely_first_page urls.

Definition bumped (urls : list string) (start_page : Z) : bool :=
  original_has_page_1 urls && Z.eqb start_page 1.

Definition effective_start (urls : list string) (start_page : Z) : Z :=
  if bumped urls start_page then 2%Z else start_page.

(** The condition of the page-1 list comprehension of [paginate_urls]. *)
Definition first_page_candidate (url : string) : bool :=
  page_is (extract_page_number url) 1 ||
  (negb (is_some (extract_page_number url)) && is_likely_first_page url).

(** The treatment of one [page_urls] list (one pagination result) in the
    auto-scrape branch of [paginate_urls]. *)
Definition filter_page_urls (urls : list string) (start_page : Z)
           (end_page : option Z) (page_urls : list string) : list string :=
  let page_urls :=
    if bumped urls start_page
    then filter (fun u => negb (first_page_candidate u)) page_urls
    else page_urls in
  let filtered := filter_urls_by_page_range page_urls (effective_start urls start_page) end_page in
  filter (fun u => negb (mem u urls)) filtered.

(** [unique_page_urls] of [paginate_urls]: [batches] are the [page_urls]
    lists of the pagination results, in order; [urls] are the original
    URLs. *)
Definition paginate_urls_targets (urls : list string) (batches : list (list string))
           (start_page : Z) (end_page : option Z) : list string :=
  dedup (flat_map (filter_page_urls urls start_page end_page) batches).

(** The first URL of a list whose page number is [n]. *)
Definition first_with_page (n : Z) (urls : list string) : option string :=
  find (fun u => page_is (extract_page_number u) n) urls.

End Pagination.

Module Email.

Import Pagination.

(** [[a-zA-Z0-9._%+-]] *)
Definition local_char (c : ascii) : bool :=
  is_alpha c || is_digit c || one_of "._%+-" c.

(** [[a-zA-Z0-9.-]] *)
Definition domain_char (c : ascii) : bool :=
  is_alpha c || is_digit c || one_of ".-" c.

(** [r'^[a-zA-Z0-9._%+-]+@[a-zA-Z0-9.-]+\.[a-zA-Z]{2,}$'] used with
    [re.match]; [{2,}] is one letter followed by [+]. *)
Definition email_pattern : pattern :=
  [Plus local_char; Chr "@"; Plus domain_char; Chr "."; Cls is_alpha; Plus is_alpha; Eol]%char.

(** Python's [str.split(sep)] for a one-character separator. *)
Fixpoint split_on (sep : ascii) (s : list ascii) : list (list ascii) :=
  match s with
  | [] => [[]]
  | c :: s' =>
      if Ascii.eqb c sep then [] :: split_on sep s'
      else match split_on sep s' with
           | w :: ws => (c :: w) :: ws
           | [] => [[c]]
           end
  end.

Definition has_char (c : ascii) (s : list ascii) : bool := existsb (Ascii.eqb c) s.

Definition _is_valid_email (email : string) : bool :=
  let s := list_ascii_of_string email in
  if (match s with [] => true | _ => false end) || negb (has_char "@" s)
     || negb (has_char "." (nth 1 (split_on "@" s) []))
  then false
  else if (List.length s <? 5)%nat || (254 <? List.length s)%nat then false
  else is_some (match_at email_pattern s).

(** The final step of [extract_emails_from_html]: [emails] is the set of
    candidates collected by the five strategies (modelled as a list of
    distinct strings); only valid ones are returned. *)
Definition valid_emails (candidates : list string) : list string :=
  filter _is_valid_email (dedup candidates).

(** An element selected by [soup.select('[data-email], [data-name],
    [data-domain]')]; an absent attribute reads as [''] ([element.get(a, '')]). *)
Record element := { data_name : string; data_domain : string; data_email : string }.

(** Method 1 of [_extract_obfuscated_emails]: data attributes. *)
Definition data_attribute_emails (els : list element) : list string :=
  flat_map (fun el =>
              if negb (String.eqb (data_email el) "") then [data_email el]
              else if negb (String.eqb (data_name el) "") && negb (String.eqb (data_domain el) "")
              then [(data_name el ++ "@" ++ data_domain el)%string]
              else []) els.

(** Modelled from the spec (Invariant I5): the structural shape of a
    validated email, [local-part@domain.tld] matched as a whole string,
    with total length in [5, 254]. *)
Definition spec_email_shape (email : string) : bool :=
  let s := list_ascii_of_string email in
  existsb (fun '(rest, _) => match rest with [] => true | _ => false end)
          (runs [Plus local_char; Chr "@"; Plus domain_char; Chr "."; Cls is_alpha; Plus is_alpha]%char s None)
  && (5 <=? List.length s)%nat && (List.length s <=? 254)%nat.

End Email.
(** * Python string helpers and the remaining functions of [pagination.py] *)

Module Text.

Import Pagination.

(** [str.isspace] on the characters 0..255 (Latin-1): tab .. carriage
    return, the separators 0x1c .. 0x1f, space, NEL (0x85) and NBSP (0xa0);
    this is also what [\s] matches in a [str] pattern. *)
Definition is_space (c : ascii) : bool :=
  let n := nat_of_ascii c in
  ((9 <=? n)%nat && (n <=? 13)%nat) || ((28 <=? n)%nat && (n <=? 32)%nat)
  || (n =? 133)%nat || (n =? 160)%nat.

(** [str.lower] on Latin-1: A..Z and 0xc0 .. 0xde except 0xd7. *)
Definition lower_char (c : ascii) : ascii :=
  let n := nat_of_ascii c in
  if ((65 <=? n)%nat && (n <=? 90)%nat)
     || ((192 <=? n)%nat && (n <=? 222)%nat && negb (n =? 215)%nat)
  then ascii_of_nat (n + 32) else c.

Definition lower (s : list ascii) : list ascii := map lower_char s.

Fixpoint lstrip (s : list ascii) : list ascii :=
  match s with
  | c :: s' => if is_space c then lstrip s' else s
  | [] => []
  end.

(** [str.strip()] *)
Definition strip (s : list ascii) : list ascii := rev (lstrip (rev (lstrip s))).

(** [str.split()] with no argument: maximal runs of non-space characters;
    [cur] is the word being read, reversed. *)
Fixpoint words_aux (cur : list ascii) (s : list ascii) : list (list ascii) :=
  match s with
  | [] => match cur with [] => [] | _ => [rev cur] end
  | c :: s' =>
      if is_space c
      then match cur with [] => words_aux [] s' | _ => rev cur :: words_aux [] s' end
      else words_aux (c :: cur) s'
  end.

Definition split_ws (s : list ascii) : list (list ascii) := words_aux [] s.

(** [sep.join(ws)] *)
Fixpoint join (sep : list ascii) (ws : list (list ascii)) : list ascii :=
  match ws with
  | [] => []
  | [w] => w
  | w :: ws' => w ++ sep ++ join sep ws'
  end.

(** The first occurrence of [sep] in [s]: the text before it and after it.
    [s.split(sep)[0]] is the first component (or [s] when there is none),
    and [s.split(sep)[1]] is the text between the first and the second
    occurrence (or up to the end). *)
Fixpoint cut (sep s : list ascii) : option (list ascii * list ascii) :=
  if prefixb sep s then Some ([], skipn (List.length sep) s)
  else match s with
       | [] => None
       | c :: s' =>
           match cut sep s' with
           | Some (b, a) => Some (c :: b, a)
           | None => None
           end
       end.

Definition split_first (sep s : list ascii) : list ascii :=
  match cut sep s with Some (b, _) => b | None => s end.

(** [s.split(sep)[1]]; [None] is the [IndexError] when [sep] is absent. *)
Definition split_second (sep s : list ascii) : option (list ascii) :=
  match cut sep s with
  | Some (_, a) => Some (split_first sep a)
  | None => None
  end.

(** [str.replace(" ", "+")] *)
Definition replace_space_plus (s : list ascii) : list ascii :=
  map (fun c => if Ascii.eqb c " "%char then "+"%char else c) s.

(** [str(n)] for a Python [int]. *)
Definition z_to_dec (n : Z) : list ascii :=
  list_ascii_of_string (NilEmpty.string_of_int (Z.to_int n)).

Definition s (x : string) : list ascii := list_ascii_of_string x.

End Text.

Module Faculty.

Import Pagination Text.

(** [(\d+)\s+(?:faculty|professors|researchers|academics)] with
    [re.IGNORECASE]: the prefix, then the alternatives, tried in this order
    inside each backtracking choice of the prefix. *)
Definition ci (w : string) : pattern :=
  map (fun c => Cls (fun x => Ascii.eqb (lower_char x) c)) (list_ascii_of_string w).

Definition count_prefix : pattern := [Group is_digit; Plus is_space].

Definition count_words : list pattern :=
  [ci "faculty"; ci "professors"; ci "researchers"; ci "academics"].

Definition match_at_alt (pre : pattern) (alts : list pattern) (x : list ascii)
  : option (option (list ascii)) :=
  match flat_map (fun '(x', c) => flat_map (fun a => runs a x' c) alts) (runs pre x None) with
  | [] => None
  | (_, cap) :: _ => Some cap
  end.

Fixpoint search_alt (pre : pattern) (alts : list pattern) (x : list ascii)
  : option (option (list ascii)) :=
  match match_at_alt pre alts x with
  | Some c => Some c
  | None => match x with [] => None | _ :: x' => search_alt pre alts x' end
  end.

Definition parse_faculty_count (prompt : string) : Z :=
  match search_alt count_prefix count_words (list_ascii_of_string prompt) with
  | Some (Some ds) => digits_value ds
  | _ => 5%Z
  end.

(** [generate_search_urls]; [count] is unused by the source. *)
Definition generate_search_urls (university_name : string) (count : Z) : list string :=
  let cleaned := replace_space_plus (strip (list_ascii_of_string university_name)) in
  [ string_of_list_ascii (Text.s "https://www.google.com/search?q=" ++ cleaned ++ Text.s "+faculty+directory");
    string_of_list_ascii (Text.s "https://www.google.com/search?q=" ++ cleaned ++ Text.s "+professor+profiles") ].

(** Python's [l[:k]]. *)
Definition slice_to {A} (l : list A) (k : Z) : list A :=
  if (0 <=? k)%Z then firstn (Z.to_nat k) l
  else firstn (Z.to_nat (Z.of_nat (List.length l) + k)) l.

(** [extract_faculty_count]: the selected profiles, [total_tokens] and
    [total_cost] (both always zero). *)
Definition extract_faculty_count {A} (faculty_profiles : list A) (count : Z)
           (criteria : option string) : list A * Z * Z :=
  if (Z.of_nat (List.length faculty_profiles) <=? count)%Z
  then (faculty_profiles, 0%Z, 0%Z)
  else match criteria with
       | Some c => if String.eqb c "" then (slice_to faculty_profiles count, 0%Z, 0%Z)
                   else (slice_to faculty_profiles count, 0%Z, 0%Z)
       | None => (slice_to faculty_profiles count, 0%Z, 0%Z)
       end.

End Faculty.

Module Json.

(** A JSON value as [json.loads] returns it (numbers: integers only). *)
#[warnings="-register-all"]
Inductive json : Type :=
| JNull
| JBool (b : bool)
| JNum (n : Z)
| JStr (v : string)
| JArr (l : list json)
| JObj (kv : list (string * json)).

(** Python truthiness. *)
Definition truthy (j : json) : bool :=
  match j with
  | JNull => false
  | JBool b => b
  | JNum n => negb (Z.eqb n 0)
  | JStr v => negb (String.eqb v "")
  | JArr l => match l with [] => false | _ => true end
  | JObj kv => match kv with [] => false | _ => true end
  end.

(** [d[k]] / [k in d] on a dict (keys are unique in a dict). *)
Fixpoint lookup (k : string) (kv : list (string * json)) : option json :=
  match kv with
  | [] => None
  | (k', v) :: kv' => if String.eqb k k' then Some v else lookup k kv'
  end.

(** [d[k] = v]: replaces the value of an existing key in place, or adds
    the key at the end. *)
Fixpoint dict_set (k : string) (v : json) (kv : list (string * json))
  : list (string * json) :=
  match kv with
  | [] => [(k, v)]
  | (k', v') :: kv' => if String.eqb k k' then (k', v) :: kv' else (k', v') :: dict_set k v kv'
  end.

End Json.

Module Faculty2.

Import Pagination Text Json Faculty.

Section Search.

(** [json.dumps] of a profile (a library function). *)
Variable dumps : list (string * json) -> string.

Definition match_reason (lowered : list ascii) : json :=
  JStr (string_of_list_ascii (Text.s "Matched search terms in prompt: '" ++ lowered ++ Text.s "'")).

(** [search_faculty_by_prompt]: keyword match of the lower-cased prompt's
    words against the lower-cased JSON text of each profile. *)
Definition search_faculty_by_prompt (faculty_profiles : list (list (string * json)))
           (prompt : string) : list (list (string * json)) :=
  if String.eqb prompt "" then faculty_profiles
  else match faculty_profiles with
       | [] => faculty_profiles
       | _ =>
           let lowered := lower (list_ascii_of_string prompt) in
           flat_map (fun profile =>
                       let profile_text := lower (list_ascii_of_string (dumps profile)) in
                       if existsb (fun keyword => contains keyword profile_text) (split_ws lowered)
                       then [dict_set "match_reason" (match_reason lowered) profile]
                       else []) faculty_profiles
       end.

End Search.

Section Prompt.

(** [PROMPT_PAGINATION] from [assets] (not part of the sources). *)
Variable PROMPT_PAGINATION : list ascii.

Definition build_pagination_prompt (indications url : list ascii) : list ascii :=
  PROMPT_PAGINATION ++ newline :: Text.s "The page being analyzed is: " ++ url ++ [newline] ++
  (if negb (match strip indications with [] => true | _ => false end)
   then Text.s "These are the user's indications. Pay attention:" ++ newline :: indications
        ++ [newline; newline]
   else Text.s "No special user indications. Just apply the pagination logic." ++ [newline; newline]).

(** [pagination_range_info] of [paginate_urls]. *)
Definition pagination_range_info (effective_start_page : Z) (end_page : option Z) : list ascii :=
  Text.s "Extract pagination URLs only within this range: starting from page "
  ++ z_to_dec effective_start_page
  ++ (match end_page with Some e => Text.s " up to page " ++ z_to_dec e | None => [] end)
  ++ Text.s ".".

Definition full_indication (indication range_info : list ascii) : list ascii :=
  if negb (match strip indication with [] => true | _ => false end)
  then indication ++ newline :: range_info else range_info.

(** The prompt [paginate_urls] sends for one original URL. *)
Definition paginate_prompt (urls : list string) (indication : list ascii)
           (current_url : list ascii) (start_page : Z) (end_page : option Z) : list ascii :=
  build_pagination_prompt
    (full_indication indication (pagination_range_info (effective_start urls start_page) end_page))
    current_url.

End Prompt.

End Faculty2.

Module Scraper.

Import Json.

(** One listing of the loop of [extract_and_add_emails]. *)
Definition fill_listing (extracted_emails : list string) (listing : json) : json :=
  match listing with
  | JObj kv =>
      let set := JObj (dict_set "email"
                          (match extracted_emails with
                           | e0 :: _ => JStr e0
                           | [] => JStr "N/A"
                           end) kv) in
      match lookup "email" kv with
      | Some v =>
          if truthy v && negb (match v with JStr w => String.eqb w "N/A" | _ => false end)
          then listing else set
      | None => set
      end
  | _ => listing
  end.

(** Lines 99-110 of [extract_and_add_emails], after the raw data has been
    read and [extract_emails_from_html] has run.  Iterating over
    [parsed_data["listings"]] walks a list's items, a dict's keys or a
    string's characters (none of them a dict); any other value raises
    [TypeError], modelled as [None]. *)
Definition add_emails_to_parsed (extracted_emails : list string) (parsed_data : json)
  : option json :=
  match extracted_emails, parsed_data with
  | _ :: _, JObj kv =>
      match lookup "listings" kv with
      | Some (JArr ls) =>
          Some (JObj (dict_set "listings" (JArr (map (fill_listing extracted_emails) ls)) kv))
      | Some (JObj _) | Some (JStr _) => Some parsed_data
      | Some _ => None
      | None => Some parsed_data
      end
  | _, _ => Some parsed_data
  end.

End Scraper.

Module Email2.

Import Pagination Text Email.

(** [_extract_emails_from_mailto] over the [href] values of the anchors
    selected by [a[href^="mailto:"]]. *)
Definition mailto_emails (hrefs : list string) : list string :=
  flat_map (fun href =>
              let h := list_ascii_of_string href in
              if contains (Text.s "mailto:") h then
                match split_second (Text.s "mailto:") h with
                | Some m =>
                    match strip (split_first (Text.s "?") m) with
                    | [] => []
                    | e => [string_of_list_ascii e]
                    end
                | None => []
                end
              else []) hrefs.

(** The text matched by the first successful alternative at position 0. *)
Definition match_text (p : pattern) (x : list ascii) : option (list ascii) :=
  match runs p x None with
  | [] => None
  | (r, _) :: _ => Some (firstn (List.length x - List.length r) x)
  end.

(** [re.search] returning the matched text. *)
Fixpoint search_text (p : pattern) (x : list ascii) : option (list ascii) :=
  match match_text p x with
  | Some t => Some t
  | None => match x with [] => None | _ :: x' => search_text p x' end
  end.

(** [r'@([a-zA-Z0-9.-]+\.[a-zA-Z]{2,})']: group 1 is the whole match
    after the [@]. *)
Definition at_domain_pattern : pattern :=
  [Chr "@"; Plus domain_char; Chr "."; Cls is_alpha; Plus is_alpha]%char.

Definition _generate_academic_email_pattern (name html_content : string) : option string :=
  match search_text at_domain_pattern (list_ascii_of_string html_content) with
  | None => None
  | Some m =>
      let domain := tl m in
      match domain with
      | [] => None
      | _ =>
          let cleaned :=
            lower (strip (filter (fun c => is_alpha c || is_space c) (list_ascii_of_string name))) in
          match split_ws cleaned with
          | first_name :: (_ :: _) as rest =>
              Some (string_of_list_ascii
                      (first_name ++ "."%char :: last rest [] ++ "@"%char :: domain))
          | _ => None
          end
      end
  end.

(** [_extract_name_from_academic_page] over the texts of the [<h1>]
    elements, in document order, and the text of the [<title>] element. *)
Definition _extract_name_from_academic_page (h1_texts : list string) (title : option string)
  : option string :=
  let good (t : string) :=
    let x := list_ascii_of_string t in
    negb (match x with [] => true | _ => false end)
    && negb (match strip x with [] => true | _ => false end)
    && (List.length (split_ws (strip x)) <=? 5)%nat in
  match find good h1_texts with
  | Some t => Some (string_of_list_ascii (strip (list_ascii_of_string t)))
  | None =>
      match title with
      | Some title_text =>
          let x := list_ascii_of_string title_text in
          if contains (Text.s "profile") (lower x) then
            let name_parts := split_ws (strip (split_first (Text.s "|") x)) in
            if (1 <? List.length name_parts)%nat && (List.length name_parts <=? 5)%nat
            then Some (string_of_list_ascii (join (Text.s " ") name_parts))
            else None
          else None
      | None => None
      end
  end.

End Email2.


Module Seq.

Import Pagination.

(** [l1] is [l2] with some elements removed, the rest kept in order. *)
Inductive subseq {A : Type} : list A -> list A -> Prop :=
| subseq_nil : subseq [] []
| subseq_keep (x : A) (l1 l2 : list A) : subseq l1 l2 -> subseq (x :: l1) (x :: l2)
| subseq_skip (x : A) (l1 l2 : list A) : subseq l1 l2 -> subseq l1 (x :: l2).

(** The known page numbers of a list of URLs, in order. *)
Definition known_pages (urls : list string) : list Z :=
  flat_map (fun u => match extract_page_number u with Some n => [n] | None => [] end) urls.

(** Lower-case ASCII letter. *)
Definition is_lower_letter (c : ascii) : bool :=
  (97 <=? nat_of_ascii c)%nat && (nat_of_ascii c <=? 122)%nat.

End Seq.

(** * Properties *)

Module Facts.

Import Pagination.

Example ex_page7 : extract_page_number "https://x.org/list?page=7" = Some 7%Z.
Proof. reflexivity. Qed.

Example ex_path3 : extract_page_number "https://x.org/list/page/3" = Some 3%Z.
Proof. reflexivity. Qed.

Example ex_none : extract_page_number "https://x.org/list" = None.
Proof. reflexivity. Qed.

Example ex_root : is_likely_first_page "https://site.edu/" = true.
Proof. reflexivity. Qed.

Example ex_p4 : is_likely_first_page "https://site.edu/dept?page=4" = false.
Proof. reflexivity. Qed.


Lemma mem_In (u : string) (l : list string) : mem u l = true <-> In u l.
Proof.
  unfold mem. rewrite existsb_exists. split.
  - intros (x & Hx & Heq). apply String.eqb_eq in Heq. subst. exact Hx.
  - intros Hin. exists u. split; [exact Hin | apply String.eqb_refl].
Qed.

Lemma existsb_Zeqb (n : Z) (l : list Z) : existsb (Z.eqb n) l = true <-> In n l.
Proof.
  rewrite existsb_exists. split.
  - intros (x & Hx & Heq). apply Z.eqb_eq in Heq. subst. exact Hx.
  - intros Hin. exists n. split; [exact Hin | apply Z.eqb_refl].
Qed.

Lemma dedup_loop_incl (seen l : list string) (u : string) :
  In u (dedup_loop seen l) -> In u l.
Proof.
  revert seen. induction l as [|x l IH]; intros seen H; simpl in H.
  - contradiction.
  - destruct (mem x seen).
    + right. exact (IH _ H).
    + destruct H as [<-|H]; [left; reflexivity | right; exact (IH _ H)].
Qed.

Lemma page_is_Some (m n : Z) : page_is (Some m) n = Z.eqb m n.
Proof. reflexivity. Qed.

(** Membership in the output of the range-filter loop: a URL survives iff
    its page number is unknown, or it is in range, not yet seen, and it is
    the first URL of the list with that page number. *)
Lemma filter_range_loop_In (st : Z) (en : option Z) (seen : list Z)
      (urls : list string) (u : string) :
  In u (filter_range_loop st en seen urls) <->
  In u urls /\
  match extract_page_number u with
  | None => True
  | Some n => in_range st en n = true /\ ~ In n seen /\ first_with_page n urls = Some u
  end.
Proof.
  revert seen. induction urls as [|x rest IH]; intros seen.
  - simpl. tauto.
  - unfold first_with_page in *. simpl.
    destruct (extract_page_number x) as [m|] eqn:Ex.
    + destruct (existsb (Z.eqb m) seen) eqn:Hs.
      * apply existsb_Zeqb in Hs. rewrite IH.
        destruct (extract_page_number u) as [n|] eqn:Eu.
        -- cbn [page_is]. destruct (Z.eqb_spec m n) as [<-|Hmn].
           ++ split; [intros (_ & _ & Hns & _); contradiction|].
              intros (_ & _ & Hns & _); contradiction.
           ++ split.
              ** intros (Hin & Hr & Hns & Hf). auto.
              ** intros ([<-|Hin] & Hr & Hns & Hf).
                 { rewrite Ex in Eu. injection Eu as ->. contradiction. }
                 { auto. }
        -- split.
           ++ intros (Hin & _). auto.
           ++ intros ([<-|Hin] & _); [rewrite Ex in Eu; discriminate | auto].
      * destruct (in_range st en m) eqn:Hr.
        -- simpl. rewrite IH.
           destruct (extract_page_number u) as [n|] eqn:Eu.
           ++ cbn [page_is]. destruct (Z.eqb_spec m n) as [<-|Hmn].
              ** split.
                 { intros [<-|(Hin & _ & Hns & _)]; [|exfalso; apply Hns; left; reflexivity].
                   split; [left; reflexivity|].
                   split; [exact Hr|]. split; [|reflexivity].
                   intros Hin. apply existsb_Zeqb in Hin. congruence. }
                 { intros (_ & _ & _ & Hf). left. congruence. }
              ** split.
                 { intros [<-|(Hin & Hr' & Hns & Hf)].
                   - rewrite Ex in Eu. congruence.
                   - split; [right; exact Hin|]. split; [exact Hr'|].
                     split; [intros H; apply Hns; right; exact H | exact Hf]. }
                 { intros ([<-|Hin] & Hr' & Hns & Hf).
                   - left; reflexivity.
                   - right. split; [exact Hin|]. split; [exact Hr'|].
                     split; [intros [H|H]; [congruence | contradiction] | exact Hf]. }
           ++ split.
              ** intros [<-|(Hin & _)]; split; auto.
              ** intros ([<-|Hin] & _); [left; reflexivity | right; auto].
        -- rewrite IH.
           destruct (extract_page_number u) as [n|] eqn:Eu.
           ++ cbn [page_is]. destruct (Z.eqb_spec m n) as [<-|Hmn].
              ** split; intros (_ & Hr' & _); congruence.
              ** split.
                 { intros (Hin & Hr' & Hns & Hf). auto. }
                 { intros ([<-|Hin] & Hr' & Hns & Hf).
                   - rewrite Ex in Eu. congruence.
                   - auto. }
           ++ split.
              ** intros (Hin & _). auto.
              ** intros ([<-|Hin] & _); [rewrite Ex in Eu; discriminate | auto].
    + simpl. rewrite IH.
      destruct (extract_page_number u) as [n|] eqn:Eu.
      * split.
        -- intros [<-|(Hin & Hr & Hns & Hf)]; [rewrite Ex in Eu; discriminate|].
           auto.
        -- intros ([<-|Hin] & Hr & Hns & Hf); [rewrite Ex in Eu; discriminate|].
           auto.
      * split.
        -- intros [<-|(Hin & _)]; auto.
        -- intros ([<-|Hin] & _); auto.
Qed.

Lemma filter_range_In (urls : list string) (st : Z) (en : option Z) (u : string) :
  In u (filter_urls_by_page_range urls st en) <->
  In u urls /\
  match extract_page_number u with
  | None => True
  | Some n => in_range st en n = true /\ first_with_page n urls = Some u
  end.
Proof.
  unfold filter_urls_by_page_range. rewrite filter_range_loop_In.
  destruct (extract_page_number u); [|tauto].
  simpl. tauto.
Qed.

(** Every resolved URL comes out of [filter_page_urls] of one batch. *)
Lemma targets_In (urls : list string) (batches : list (list string)) st en u :
  In u (paginate_urls_targets urls batches st en) ->
  exists b, In b batches /\ In u (filter_page_urls urls st en b).
Proof.
  unfold paginate_urls_targets, dedup. intros H.
  apply dedup_loop_incl in H. apply in_flat_map in H. exact H.
Qed.

Lemma filter_page_urls_In (urls : list string) st en b u :
  In u (filter_page_urls urls st en b) <->
  ~ In u urls /\
  In u (filter_urls_by_page_range
          (if bumped urls st then filter (fun v => negb (first_page_candidate v)) b else b)
          (effective_start urls st) en).
Proof.
  unfold filter_page_urls. rewrite filter_In, Bool.negb_true_iff.
  split; intros [H1 H2].
  - split; [|exact H1]. intros Hin. apply mem_In in Hin. congruence.
  - split; [exact H2|]. destruct (mem u urls) eqn:Hm; [|reflexivity].
    apply mem_In in Hm. contradiction.
Qed.

(** Filtering by a predicate that is constant on the elements [f] selects
    either keeps the first such element or removes all of them. *)
Lemma find_filter_const {A} (f g : A -> bool) (c : bool) (l : list A) :
  (forall x, f x = true -> g x = c) ->
  find f (filter g l) = if c then find f l else None.
Proof.
  intros Hc. induction l as [|x l IH]; simpl.
  - destruct c; reflexivity.
  - destruct (f x) eqn:Fx.
    + rewrite (Hc x Fx). destruct c; simpl; [rewrite Fx; reflexivity | exact IH].
    + destruct (g x); simpl; [rewrite Fx|]; exact IH.
Qed.

(** First match wins: [first_match] returns the value of pattern [i] when
    it matches and no earlier pattern does. *)
Lemma first_match_nth (ps : list pattern) (s : list ascii) (i : nat) (ds : list ascii) :
  (i < List.length ps)%nat ->
  search (nth i ps []) s = Some (Some ds) ->
  (forall j, (j < i)%nat -> search (nth j ps []) s = None) ->
  first_match ps s = Some (digits_value ds).
Proof.
  revert i. induction ps as [|p ps IH]; intros i Hi Hm Hb; simpl in *.
  - lia.
  - destruct i as [|i].
    + rewrite Hm. reflexivity.
    + rewrite (Hb 0%nat ltac:(lia)).
      apply (IH i); [lia | exact Hm |].
      intros j Hj. exact (Hb (S j) ltac:(lia)).
Qed.

(** [re.search] skips a prefix at none of whose positions the pattern
    matches. *)
Lemma search_skip (p : pattern) (pre rest : list ascii) :
  (forall k, (k < List.length pre)%nat -> match_at p (skipn k (pre ++ rest)) = None) ->
  search p (pre ++ rest) = search p rest.
Proof.
  induction pre as [|x pre IH]; intros H; simpl.
  - reflexivity.
  - pose proof (H 0%nat ltac:(simpl; lia)) as H0. simpl in H0. rewrite H0.
    apply IH. intros k Hk. exact (H (S k) ltac:(simpl; lia)).
Qed.

Lemma runs_lit (l : list ascii) (p : pattern) (s : list ascii) cap :
  runs (map Chr l ++ p) (l ++ s) cap = runs p s cap.
Proof.
  induction l as [|c l IH]; simpl.
  - reflexivity.
  - rewrite Ascii.eqb_refl. simpl. rewrite app_nil_r. exact IH.
Qed.

(** Greedy [+]: the longest run comes first. *)
Lemma spans_greedy (f : ascii -> bool) (ds post : list ascii) :
  ds <> [] -> forallb f ds = true ->
  match post with c :: _ => f c = false | [] => True end ->
  exists tl, spans f (ds ++ post) = (ds, post) :: tl.
Proof.
  intros Hne. induction ds as [|c ds IH]; intros Hall Hpost; [contradiction|].
  simpl in Hall. apply andb_true_iff in Hall as [Hc Hall]. simpl. rewrite Hc.
  destruct ds as [|d ds'].
  - simpl. destruct post as [|e post]; simpl.
    + exists []. reflexivity.
    + rewrite Hpost. exists []. reflexivity.
  - destruct (IH ltac:(discriminate) Hall Hpost) as [tl Htl].
    rewrite Htl. simpl. eexists. reflexivity.
Qed.

Lemma runs_cls (f : ascii -> bool) (x : ascii) (p : pattern) (s : list ascii) cap :
  f x = true -> runs (Cls f :: p) (x :: s) cap = runs p s cap.
Proof. intros H. simpl. rewrite H. simpl. apply app_nil_r. Qed.

Lemma runs_group_first (f : ascii -> bool) (s t r : list ascii) tl cap :
  spans f s = (t, r) :: tl ->
  exists rest, runs [Group f] s cap = (r, Some t) :: rest.
Proof. intros H. simpl. rewrite H. simpl. eexists. reflexivity. Qed.

Lemma search_here (p : pattern) (s : list ascii) c :
  match_at p s = Some c -> search p s = Some c.
Proof. intros H. destruct s; simpl; rewrite H; reflexivity. Qed.

Lemma dedup_loop_complete (seen l : list string) (u : string) :
  In u l -> ~ In u seen -> In u (dedup_loop seen l).
Proof.
  revert seen. induction l as [|x l IH]; intros seen Hin Hns; simpl.
  - contradiction.
  - destruct (mem x seen) eqn:Hm.
    + apply mem_In in Hm. destruct Hin as [<-|Hin]; [contradiction|].
      exact (IH _ Hin Hns).
    + destruct (String.eqb_spec x u) as [<-|Hxu]; [left; reflexivity|].
      right. destruct Hin as [<-|Hin]; [congruence|].
      apply IH; [exact Hin|]. intros [H|H]; [congruence | contradiction].
Qed.

End Facts.

Module Claims.

Import Pagination Email Facts.

(** C1: with original ["https://u.edu/dept"] (a first page by the
    heuristic), candidates [?page=1], [?page=2], [?page=3], start page 1
    and end page 2, the effective start is bumped to 2 and the resolver
    returns exactly ["https://u.edu/dept?page=2"]. *)
Theorem C1_worked_example :
  is_likely_first_page "https://u.edu/dept" = true /\
  effective_start ["https://u.edu/dept"]%string 1 = 2%Z /\
  paginate_urls_targets ["https://u.edu/dept"]%string
    [["https://u.edu/dept?page=1"; "https://u.edu/dept?page=2";
      "https://u.edu/dept?page=3"]%string] 1 (Some 2%Z)
  = ["https://u.edu/dept?page=2"]%string.
Proof. vm_compute. repeat split. Qed.

(** C2: for all original URLs, candidate lists and page ranges, no
    resolved URL is string-equal to an original URL. *)
Theorem C2_no_original_url (urls : list string) (batches : list (list string))
        (start_page : Z) (end_page : option Z) :
  Forall (fun u => ~ In u urls) (paginate_urls_targets urls batches start_page end_page).
Proof.
  apply Forall_forall. intros u Hu.
  destruct (targets_In _ _ _ _ _ Hu) as (b & _ & Hb).
  apply filter_page_urls_In in Hb. exact (proj1 Hb).
Qed.

(** C3 (amended): a URL with unknown page number always survives range
    filtering; a URL with known page number [n] survives iff
    [start_page <= n], ([end_page] is unbounded or [n <= end_page]), and it
    is the first URL of the input list with page number [n]. *)
Theorem C3_range_filter_membership (urls : list string) (start_page : Z)
        (end_page : option Z) (u : string) :
  In u (filter_urls_by_page_range urls start_page end_page) <->
  In u urls /\
  match extract_page_number u with
  | None => True
  | Some n =>
      (start_page <= n)%Z /\ (match end_page with Some e => (n <= e)%Z | None => True end) /\
      first_with_page n urls = Some u
  end.
Proof.
  rewrite filter_range_In. destruct (extract_page_number u) as [n|]; [|tauto].
  unfold in_range. destruct end_page as [e|].
  - rewrite andb_true_iff, !Z.leb_le. tauto.
  - rewrite Z.leb_le. tauto.
Qed.

(** C3 counterexample: of two different URLs with the in-range page
    number 2, the second is not in the output although [1 <= 2]. *)
Lemma C3_counterexample :
  extract_page_number "https://u.edu/b?page=2" = Some 2%Z /\
  ~ In "https://u.edu/b?page=2"%string
    (filter_urls_by_page_range ["https://u.edu/a?page=2"; "https://u.edu/b?page=2"]%string 1 None).
Proof.
  split; [vm_compute; reflexivity|].
  vm_compute. intros [H|[]]. discriminate.
Qed.

(** C4 (amended): within the candidate list of one pagination result, the
    only URL with page number [n] that can reach the output is the first
    candidate with page number [n]; every later candidate with the same
    page number is dropped. *)
Theorem C4_batch_page_unique (urls cands : list string) (start_page : Z)
        (end_page : option Z) (n : Z) (a u : string) :
  first_with_page n cands = Some a ->
  In u (paginate_urls_targets urls [cands] start_page end_page) ->
  extract_page_number u = Some n ->
  u = a.
Proof.
  intros Ha Hu Eu.
  destruct (targets_In _ _ _ _ _ Hu) as (b & [<-|[]] & Hb).
  apply filter_page_urls_In in Hb as [_ Hb].
  apply filter_range_In in Hb as [_ Hb]. rewrite Eu in Hb. destruct Hb as [_ Hf].
  destruct (bumped urls start_page); [|congruence].
  unfold first_with_page in Hf, Ha.
  rewrite (find_filter_const _ _ (negb (Z.eqb n 1))) in Hf.
  - destruct (negb (Z.eqb n 1)); congruence.
  - intros x Hx. unfold first_page_candidate.
    destruct (extract_page_number x) as [k|]; [|discriminate].
    cbn [page_is is_some negb andb] in *. apply Z.eqb_eq in Hx. subst.
    rewrite orb_false_r. reflexivity.
Qed.

Lemma C4_witness :
  first_with_page 2 ["https://u.edu/dept?page=2"; "https://u.edu/dept?page=3";
                     "https://u.edu/dept?sort=a&page=2"]%string
    = Some "https://u.edu/dept?page=2"%string /\
  In "https://u.edu/dept?page=2"%string
    (paginate_urls_targets ["https://u.edu/dept"]%string
       [["https://u.edu/dept?page=2"; "https://u.edu/dept?page=3";
         "https://u.edu/dept?sort=a&page=2"]%string] 1 None) /\
  extract_page_number "https://u.edu/dept?page=2" = Some 2%Z /\
  "https://u.edu/dept?page=2"%string = "https://u.edu/dept?page=2"%string.
Proof.
  assert (H1 : first_with_page 2 ["https://u.edu/dept?page=2"; "https://u.edu/dept?page=3";
                     "https://u.edu/dept?sort=a&page=2"]%string
                 = Some "https://u.edu/dept?page=2"%string) by (vm_compute; reflexivity).
  assert (H2 : In "https://u.edu/dept?page=2"%string
    (paginate_urls_targets ["https://u.edu/dept"]%string
       [["https://u.edu/dept?page=2"; "https://u.edu/dept?page=3";
         "https://u.edu/dept?sort=a&page=2"]%string] 1 None))
    by (vm_compute; left; reflexivity).
  assert (H3 : extract_page_number "https://u.edu/dept?page=2" = Some 2%Z)
    by (vm_compute; reflexivity).
  split; [exact H1|]. split; [exact H2|]. split; [exact H3|].
  exact (C4_batch_page_unique _ _ _ _ _ _ _ H1 H2 H3).
Defined.

(** C4 counterexample: with two original URLs whose pagination results
    each contain a page-2 URL, both page-2 URLs (different strings, same
    page number) are in the output of one [paginate_urls] call. *)
Lemma C4_counterexample :
  paginate_urls_targets ["https://u.edu/a"; "https://u.edu/b"]%string
    [["https://u.edu/a?page=2"]; ["https://u.edu/b?page=2"]]%string 1 None
  = ["https://u.edu/a?page=2"; "https://u.edu/b?page=2"]%string /\
  extract_page_number "https://u.edu/a?page=2" = Some 2%Z /\
  extract_page_number "https://u.edu/b?page=2" = Some 2%Z.
Proof. vm_compute. repeat split. Qed.

(** C5 (amended): when some original URL is a likely first page and
    [start_page = 1] (so the effective start is bumped to 2), no resolved
    URL has page number 1 and no resolved URL has an unknown page number
    while being a likely first page; whenever the effective start exceeds
    1, no resolved URL has page number 1. *)
Theorem C5_first_page_drop (urls : list string) (batches : list (list string))
        (start_page : Z) (end_page : option Z) (u : string) :
  In u (paginate_urls_targets urls batches start_page end_page) ->
  (original_has_page_1 urls = true -> start_page = 1%Z ->
   extract_page_number u <> Some 1%Z /\
   ~ (extract_page_number u = None /\ is_likely_first_page u = true)) /\
  ((1 < effective_start urls start_page)%Z -> extract_page_number u <> Some 1%Z).
Proof.
  intros Hu.
  destruct (targets_In _ _ _ _ _ Hu) as (b & _ & Hb).
  apply filter_page_urls_In in Hb as [_ Hb].
  split.
  - intros Ho Hs.
    assert (Hbump : bumped urls start_page = true)
      by (unfold bumped; rewrite Ho, Hs; reflexivity).
    rewrite Hbump in Hb. apply filter_range_In in Hb as [Hb _].
    apply filter_In in Hb as [_ Hk]. apply Bool.negb_true_iff in Hk.
    unfold first_page_candidate in Hk. apply orb_false_iff in Hk as [H1 H2].
    split.
    + intros E. rewrite E in H1. discriminate.
    + intros [E L]. rewrite E, L in H2. discriminate.
  - intros Hgt E. apply filter_range_In in Hb as [_ Hb]. rewrite E in Hb.
    destruct Hb as [Hr _]. unfold in_range in Hr.
    destruct end_page; [apply andb_true_iff in Hr as [Hr _]|]; apply Z.leb_le in Hr; lia.
Qed.

Lemma C5_witness :
  In "https://u.edu/dept?page=2"%string
    (paginate_urls_targets ["https://u.edu/dept"]%string
       [["https://u.edu/dept?page=1"; "https://u.edu/dept/"; "https://u.edu/dept?page=2"]%string]
       1 None) /\
  ((original_has_page_1 ["https://u.edu/dept"]%string = true -> 1%Z = 1%Z ->
    extract_page_number "https://u.edu/dept?page=2" <> Some 1%Z /\
    ~ (extract_page_number "https://u.edu/dept?page=2" = None /\
       is_likely_first_page "https://u.edu/dept?page=2" = true)) /\
   ((1 < effective_start ["https://u.edu/dept"]%string 1)%Z ->
    extract_page_number "https://u.edu/dept?page=2" <> Some 1%Z)).
Proof.
  assert (H : In "https://u.edu/dept?page=2"%string
    (paginate_urls_targets ["https://u.edu/dept"]%string
       [["https://u.edu/dept?page=1"; "https://u.edu/dept/"; "https://u.edu/dept?page=2"]%string]
       1 None)) by (vm_compute; left; reflexivity).
  split; [exact H|]. exact (C5_first_page_drop _ _ _ _ _ H).
Defined.

(** C5 counterexample: with [start_page = 2] given directly (effective
    start 2 > 1), the candidate ["https://u.edu/dept/"], whose page number
    is unknown and which is a likely first page, is resolved. *)
Lemma C5_counterexample :
  effective_start ["https://u.edu/dept"]%string 2 = 2%Z /\
  extract_page_number "https://u.edu/dept/" = None /\
  is_likely_first_page "https://u.edu/dept/" = true /\
  paginate_urls_targets ["https://u.edu/dept"]%string [["https://u.edu/dept/"]%string] 2 None
  = ["https://u.edu/dept/"]%string.
Proof. vm_compute. repeat split. Qed.

(** C6 (amended): [extract_page_number] tries its catalog in list order
    and returns the number captured by the first pattern that matches; the
    bare trailing-number pattern [/(\d+)/?$] is at position 21 of 24, tried
    after all query-parameter, path-segment and [-N.html]/[_N.html] forms,
    and before the [pageN.html] and [pN.html] forms. *)
Theorem C6_catalog_order (url : string) (i : nat) (ds : list ascii) :
  (i < List.length patterns)%nat ->
  search (nth i patterns []) (list_ascii_of_string url) = Some (Some ds) ->
  (forall j, (j < i)%nat -> search (nth j patterns []) (list_ascii_of_string url) = None) ->
  extract_page_number url = Some (digits_value ds) /\
  List.length patterns = 24%nat /\
  nth 21 patterns [] = bare_trailing_number /\
  skipn 22 patterns = [page_html; p_html].
Proof.
  intros Hi Hm Hb. split; [|split; [|split]]; try reflexivity.
  exact (first_match_nth _ _ _ _ Hi Hm Hb).
Qed.

Lemma C6_witness :
  search bare_trailing_number (list_ascii_of_string "https://x.com/page2.html/5")
    = Some (Some ["5"%char]) /\
  extract_page_number "https://x.com/page2.html/5" = Some (digits_value ["5"%char]) /\
  List.length patterns = 24%nat /\
  nth 21 patterns [] = bare_trailing_number /\
  skipn 22 patterns = [page_html; p_html].
Proof.
  assert (Hm : search (nth 21 patterns []) (list_ascii_of_string "https://x.com/page2.html/5")
                 = Some (Some ["5"%char])) by (vm_compute; reflexivity).
  split; [exact Hm|].
  apply (C6_catalog_order "https://x.com/page2.html/5" 21 ["5"%char]).
  - apply Nat.ltb_lt. reflexivity.
  - exact Hm.
  - intros j Hj.
    do 21 (destruct j as [|j]; [vm_compute; reflexivity|]). lia.
Defined.

(** C6 counterexample: ["https://x.com/page2.html/5"] matches both the
    bare trailing-number pattern (5) and the more specific [pageN.html]
    pattern (2); the trailing number 5 is returned. *)
Lemma C6_counterexample :
  search page_html (list_ascii_of_string "https://x.com/page2.html/5") = Some (Some ["2"%char]) /\
  search bare_trailing_number (list_ascii_of_string "https://x.com/page2.html/5")
    = Some (Some ["5"%char]) /\
  extract_page_number "https://x.com/page2.html/5" = Some 5%Z.
Proof. vm_compute. repeat split. Qed.

(** C7 (amended): [is_likely_first_page url] holds iff (a) its page number
    is 1, or (b) it matches [^https?://[^/]+/?$], or (c) it ends in [/] or
    [/index.(html|php|asp|jsp)], or (d) it contains none of the substrings
    ["page="], ["/page/"], ["?p="], ["&p="]; so it is true for
    ["https://site.edu/"], false for ["https://site.edu/dept?page=4"], and
    true for ["https://site.edu/dept?seite=4"]. *)
Theorem C7_first_page_heuristic :
  (forall url : string,
     is_likely_first_page url = true <->
     extract_page_number url = Some 1%Z \/
     is_some (match_at root_pattern (list_ascii_of_string url)) = true \/
     existsb (fun p => is_some (search p (list_ascii_of_string url))) index_patterns = true \/
     existsb (fun m => contains (list_ascii_of_string m) (list_ascii_of_string url))
             pagination_markers = false) /\
  is_likely_first_page "https://site.edu/" = true /\
  is_likely_first_page "https://site.edu/dept?page=4" = false /\
  is_likely_first_page "https://site.edu/dept?seite=4" = true.
Proof.
  split; [|vm_compute; repeat split].
  intros url. unfold is_likely_first_page.
  assert (Hp : page_is (extract_page_number url) 1 = true <->
               extract_page_number url = Some 1%Z).
  { destruct (extract_page_number url) as [k|]; simpl.
    - rewrite Z.eqb_eq. split; congruence.
    - split; discriminate. }
  destruct (page_is (extract_page_number url) 1) eqn:E1; [tauto|].
  destruct (is_some (match_at root_pattern (list_ascii_of_string url))); [tauto|].
  destruct (existsb (fun p => is_some (search p (list_ascii_of_string url))) index_patterns);
    [tauto|].
  destruct (existsb (fun m => contains (list_ascii_of_string m) (list_ascii_of_string url))
                    pagination_markers); simpl; [|tauto].
  split; [discriminate|].
  intros [H|[H|[H|H]]]; try discriminate. apply Hp in H. discriminate.
Qed.

(** C7 counterexample: ["https://site.edu/dept?seite=4"] has page number 4
    by the catalog ([seite=]), yet [is_likely_first_page] returns true. *)
Lemma C7_counterexample :
  extract_page_number "https://site.edu/dept?seite=4" = Some 4%Z /\
  is_likely_first_page "https://site.edu/dept?seite=4" = true.
Proof. vm_compute. split; reflexivity. Qed.

(** C8 (code bug): an element [<span data-email="x@y.org\n">] yields the
    candidate "x@y.org" followed by a newline; [_is_valid_email] accepts it
    (Python's [$] matches before a final newline), so it is in the output
    whatever the other strategies contribute, although it does not have
    the shape [local-part@domain.tld]. *)
Theorem C8_trailing_newline_accepted :
  let bad := String.append "x@y.org" (String newline EmptyString) in
  let el := {| data_name := ""; data_domain := ""; data_email := bad |} in
  data_attribute_emails [el] = [bad] /\
  _is_valid_email bad = true /\
  (forall others : list string, In bad (valid_emails (others ++ data_attribute_emails [el]))) /\
  spec_email_shape bad = false.
Proof.
  intros bad el.
  assert (Hv : _is_valid_email bad = true) by (vm_compute; reflexivity).
  assert (Hd : data_attribute_emails [el] = [bad]) by reflexivity.
  split; [exact Hd|]. split; [exact Hv|]. split; [|vm_compute; reflexivity].
  intros others. unfold valid_emails. apply filter_In. split; [|exact Hv].
  apply dedup_loop_complete; [|intros []].
  rewrite Hd. apply in_or_app. right. left. reflexivity.
Qed.

(** C10: the query parameters [offset], [current], [pp], [paging] and
    [pagination] are read as page numbers: for a URL of the form
    [pre ++ sep ++ key ++ "=" ++ N ++ post] ([sep] one of [?], [&]; [N]
    the full digit run), with no earlier occurrence of [sep key=digits] and
    no higher-priority catalog pattern matching, the result is [N]. *)
Theorem C10_extra_query_parameters (url key : string) (i : nat) (sep : ascii)
        (pre ds post : list ascii) :
  In key ["offset"; "current"; "pp"; "paging"; "pagination"]%string ->
  In sep ["?"; "&"]%char ->
  nth i patterns [] = qparam key ->
  (i < List.length patterns)%nat ->
  list_ascii_of_string url = pre ++ sep :: list_ascii_of_string key ++ "="%char :: ds ++ post ->
  ds <> [] ->
  forallb is_digit ds = true ->
  match post with c :: _ => is_digit c = false | [] => True end ->
  (forall k, (k < List.length pre)%nat ->
     match_at (qparam key) (skipn k (list_ascii_of_string url)) = None) ->
  (forall j, (j < i)%nat -> search (nth j patterns []) (list_ascii_of_string url) = None) ->
  extract_page_number url = Some (digits_value ds).
Proof.
  intros _ Hsep Hnth Hi Hurl Hne Hds Hpost Hpre Hb.
  unfold extract_page_number.
  apply (first_match_nth _ _ i); [exact Hi| |exact Hb].
  rewrite Hnth. rewrite Hurl in Hpre |- *. rewrite (search_skip _ _ _ Hpre).
  apply search_here. unfold match_at, qparam.
  rewrite runs_cls by (destruct Hsep as [<-|[<-|[]]]; reflexivity).
  unfold lit. rewrite runs_lit.
  change (list_ascii_of_string "=") with ["="%char].
  change ("="%char :: ds ++ post) with (["="%char] ++ ds ++ post).
  rewrite runs_lit.
  destruct (spans_greedy is_digit ds post Hne Hds Hpost) as [tl Htl].
  destruct (runs_group_first _ _ _ _ _ None Htl) as [rest Hr].
  rewrite Hr. reflexivity.
Qed.

Lemma C10_witness :
  list_ascii_of_string "https://u.edu/list?offset=20" =
    list_ascii_of_string "https://u.edu/list" ++ "?"%char :: list_ascii_of_string "offset"
      ++ "="%char :: ["2"; "0"]%char ++ [] /\
  extract_page_number "https://u.edu/list?offset=20" = Some (digits_value ["2"; "0"]%char).
Proof.
  assert (Hu : list_ascii_of_string "https://u.edu/list?offset=20" =
    list_ascii_of_string "https://u.edu/list" ++ "?"%char :: list_ascii_of_string "offset"
      ++ "="%char :: ["2"; "0"]%char ++ []) by reflexivity.
  split; [exact Hu|].
  apply (C10_extra_query_parameters "https://u.edu/list?offset=20" "offset" 11 "?"%char
           (list_ascii_of_string "https://u.edu/list") ["2"; "0"]%char []).
  - simpl. tauto.
  - simpl. tauto.
  - reflexivity.
  - apply Nat.ltb_lt. reflexivity.
  - exact Hu.
  - discriminate.
  - reflexivity.
  - exact I.
  - intros k Hk. simpl in Hk.
    do 18 (destruct k as [|k]; [vm_compute; reflexivity|]). lia.
  - intros j Hj.
    do 11 (destruct j as [|j]; [vm_compute; reflexivity|]). lia.
Defined.

End Claims.


Module Extras.

Import Pagination Email Facts Seq.

(** ** Helpers *)

Lemma spans_class (f : ascii -> bool) (x t r : list ascii) :
  In (t, r) (spans f x) -> forallb f t = true.
Proof.
  revert t r. induction x as [|c x IH]; intros t r H; simpl in H; [contradiction|].
  destruct (f c) eqn:Fc; [|contradiction].
  apply in_app_or in H as [H|[H|[]]].
  - apply in_map_iff in H as ([t' r'] & Heq & Hin). injection Heq as <- <-.
    simpl. rewrite Fc. exact (IH _ _ Hin).
  - injection H as <- <-. simpl. rewrite Fc. reflexivity.
Qed.

Lemma step_capture (it : item) (x r g : list ascii) :
  In (r, Some g) (step it x) -> exists f, it = Group f /\ forallb f g = true.
Proof.
  destruct it as [c|f|c|f|f|]; simpl; intros H.
  - destruct x as [|y x]; [contradiction|].
    destruct (Ascii.eqb y c); simpl in H; [destruct H as [H|[]]; discriminate | contradiction].
  - destruct x as [|y x]; [contradiction|].
    destruct (f y); simpl in H; [destruct H as [H|[]]; discriminate | contradiction].
  - destruct x as [|y x]; simpl in H.
    + destruct H as [H|[]]; discriminate.
    + destruct (Ascii.eqb y c); simpl in H; intuition discriminate.
  - apply in_map_iff in H as ([t r'] & Heq & _). discriminate.
  - apply in_map_iff in H as ([t r'] & Heq & Hin). injection Heq as <- <-.
    exists f. split; [reflexivity | exact (spans_class _ _ _ _ Hin)].
  - destruct (at_eol x); simpl in H; [destruct H as [H|[]]; discriminate | contradiction].
Qed.

(** A capture of a pattern whose groups are all digit groups is a run of
    digits. *)
Lemma runs_capture_digits (p : pattern) (x : list ascii) (cap : option (list ascii)) r g :
  (forall f, In (Group f) p -> forall c, f c = true -> is_digit c = true) ->
  (forall d, cap = Some d -> forallb is_digit d = true) ->
  In (r, Some g) (runs p x cap) -> forallb is_digit g = true.
Proof.
  revert x cap. induction p as [|it p IH]; intros x cap Hg Hc H; simpl in H.
  - destruct H as [H|[]]. injection H as _ Hcap. exact (Hc g Hcap).
  - apply in_flat_map in H as ([x' c'] & Hstep & Hin).
    apply (IH x' (match c' with Some g0 => Some g0 | None => cap end)); [| |exact Hin].
    + intros f Hf. apply Hg. right. exact Hf.
    + intros d Hd. destruct c' as [g0|].
      * injection Hd as ->. apply step_capture in Hstep as (f & -> & Hf).
        apply forallb_forall. intros c Hcin.
        apply (Hg f (or_introl eq_refl)). exact (proj1 (forallb_forall _ _) Hf c Hcin).
      * exact (Hc d Hd).
Qed.



Lemma digits_value_nonneg_aux (ds : list ascii) (acc : Z) :
  (0 <= acc)%Z -> forallb is_digit ds = true ->
  (0 <= fold_left (fun acc c => acc * 10 + (Z.of_nat (nat_of_ascii c) - 48))%Z ds acc)%Z.
Proof.
  revert acc. induction ds as [|c ds IH]; intros acc Ha Hd; simpl in *; [exact Ha|].
  apply andb_true_iff in Hd as [Hc Hd]. apply IH; [|exact Hd].
  unfold is_digit in Hc. apply andb_true_iff in Hc as [H1 _].
  apply Nat.leb_le in H1. lia.
Qed.


Lemma filter_range_loop_subseq (st : Z) (en : option Z) (seen : list Z) (urls : list string) :
  subseq (filter_range_loop st en seen urls) urls.
Proof.
  revert seen. induction urls as [|u urls IH]; intros seen; simpl.
  - constructor.
  - destruct (extract_page_number u) as [n|].
    + destruct (existsb (Z.eqb n) seen); [constructor; apply IH|].
      destruct (in_range st en n); constructor; apply IH.
    + constructor. apply IH.
Qed.

Lemma filter_range_loop_pages (st : Z) (en : option Z) (seen : list Z) (urls : list string) :
  NoDup (known_pages (filter_range_loop st en seen urls)) /\
  (forall n, In n (known_pages (filter_range_loop st en seen urls)) -> ~ In n seen).
Proof.
  revert seen. induction urls as [|u urls IH]; intros seen; simpl.
  - split; [constructor | intros n []].
  - destruct (extract_page_number u) as [m|] eqn:Eu.
    + destruct (existsb (Z.eqb m) seen) eqn:Hs; [apply IH|].
      destruct (in_range st en m); [|apply IH].
      unfold known_pages. simpl. rewrite Eu. simpl. fold (known_pages (filter_range_loop st en (m :: seen) urls)).
      destruct (IH (m :: seen)) as [Hnd Hout]. split.
      * constructor; [|exact Hnd]. intros Hin. exact (Hout m Hin (or_introl eq_refl)).
      * intros n [<-|Hin].
        -- intros Hin. apply existsb_Zeqb in Hin. congruence.
        -- intros Hs'. exact (Hout n Hin (or_intror Hs')).
    + unfold known_pages. simpl. rewrite Eu. simpl. apply IH.
Qed.

Lemma known_pages_cons (u : string) (urls : list string) :
  known_pages (u :: urls) =
  match extract_page_number u with Some n => [n] | None => [] end ++ known_pages urls.
Proof. reflexivity. Qed.

Lemma filter_range_loop_fix (st : Z) (en : option Z) (seen : list Z) (urls : list string) :
  NoDup (known_pages urls) ->
  (forall n, In n (known_pages urls) -> ~ In n seen) ->
  (forall u n, In u urls -> extract_page_number u = Some n -> in_range st en n = true) ->
  filter_range_loop st en seen urls = urls.
Proof.
  revert seen. induction urls as [|u urls IH]; intros seen Hnd Hout Hr; [reflexivity|].
  rewrite known_pages_cons in Hnd, Hout.
  cbn [filter_range_loop].
  destruct (extract_page_number u) as [m|] eqn:Eu.
  - change ([m] ++ known_pages urls) with (m :: known_pages urls) in Hnd, Hout.
    apply NoDup_cons_iff in Hnd as [Hm Hnd'].
    destruct (existsb (Z.eqb m) seen) eqn:Hs.
    { apply existsb_Zeqb in Hs. exfalso. exact (Hout m (or_introl eq_refl) Hs). }
    rewrite (Hr u m (or_introl eq_refl) Eu). f_equal. apply IH.
    + exact Hnd'.
    + intros n Hn [<-|Hs']; [contradiction|]. exact (Hout n (or_intror Hn) Hs').
    + intros v n Hv. apply Hr. right. exact Hv.
  - change ([] ++ known_pages urls) with (known_pages urls) in Hnd, Hout.
    f_equal. apply IH; [exact Hnd | exact Hout |].
    intros v n Hv. apply Hr. right. exact Hv.
Qed.

Lemma dedup_loop_nodup (seen l : list string) :
  NoDup (dedup_loop seen l) /\ (forall u, In u (dedup_loop seen l) -> ~ In u seen).
Proof.
  revert seen. induction l as [|x l IH]; intros seen; simpl.
  - split; [constructor | intros u []].
  - destruct (mem x seen) eqn:Hm; [apply IH|].
    destruct (IH (x :: seen)) as [Hnd Hout]. split.
    + constructor; [|exact Hnd]. intros Hin. exact (Hout x Hin (or_introl eq_refl)).
    + intros u [<-|Hin].
      * intros Hs. apply mem_In in Hs. congruence.
      * intros Hs. exact (Hout u Hin (or_intror Hs)).
Qed.

Lemma dedup_loop_subseq (seen l : list string) : subseq (dedup_loop seen l) l.
Proof.
  revert seen. induction l as [|x l IH]; intros seen; simpl; [constructor|].
  destruct (mem x seen); constructor; apply IH.
Qed.

(** ** Page numbers, the range filter, de-duplication *)



(** [filter_urls_by_page_range] only removes URLs: its output is the input
    with some URLs dropped and the others in their original order. *)
Theorem filter_urls_by_page_range_subseq (urls : list string) (start_page : Z)
        (end_page : option Z) :
  subseq (filter_urls_by_page_range urls start_page end_page) urls.
Proof. apply filter_range_loop_subseq. Qed.

(** No two URLs kept by [filter_urls_by_page_range] carry the same known
    page number. *)
Theorem filter_urls_by_page_range_distinct_pages (urls : list string) (start_page : Z)
        (end_page : option Z) :
  NoDup (known_pages (filter_urls_by_page_range urls start_page end_page)).
Proof. apply filter_range_loop_pages. Qed.

(** Filtering twice with the same range gives the result of filtering
    once. *)
Theorem filter_urls_by_page_range_idempotent (urls : list string) (start_page : Z)
        (end_page : option Z) :
  filter_urls_by_page_range (filter_urls_by_page_range urls start_page end_page)
                            start_page end_page
  = filter_urls_by_page_range urls start_page end_page.
Proof.
  unfold filter_urls_by_page_range at 1. apply filter_range_loop_fix.
  - apply filter_range_loop_pages.
  - intros n _ [].
  - intros u n Hu Hn. apply filter_range_In in Hu as [_ Hu]. rewrite Hn in Hu.
    exact (proj1 Hu).
Qed.

(** The order-preserving de-duplication of [paginate_urls] keeps exactly
    one copy of every URL, at its first position. *)
Theorem dedup_spec (l : list string) :
  NoDup (dedup l) /\ subseq (dedup l) l /\ (forall u, In u (dedup l) <-> In u l).
Proof.
  split; [apply dedup_loop_nodup|]. split; [apply dedup_loop_subseq|].
  intros u. split; [apply dedup_loop_incl|].
  intros H. apply dedup_loop_complete; [exact H | intros []].
Qed.

(** The pagination URLs [paginate_urls] scrapes are pairwise distinct, and
    they are exactly the URLs kept from some pagination result. *)
Theorem paginate_urls_targets_spec (urls : list string) (batches : list (list string))
        (start_page : Z) (end_page : option Z) :
  NoDup (paginate_urls_targets urls batches start_page end_page) /\
  (forall u, In u (paginate_urls_targets urls batches start_page end_page) <->
             exists b, In b batches /\ In u (filter_page_urls urls start_page end_page b)).
Proof.
  split; [apply dedup_loop_nodup|]. intros u. split; [apply targets_In|].
  intros H. apply dedup_loop_complete; [|intros []].
  apply in_flat_map. exact H.
Qed.

(** [extract_emails_from_html] returns each valid candidate exactly once,
    and nothing else. *)
Theorem valid_emails_spec (candidates : list string) :
  NoDup (valid_emails candidates) /\
  (forall e, In e (valid_emails candidates) <-> In e candidates /\ _is_valid_email e = true).
Proof.
  unfold valid_emails. split.
  - apply NoDup_filter. apply dedup_loop_nodup.
  - intros e. rewrite filter_In. split.
    + intros [H1 H2]. split; [exact (dedup_loop_incl _ _ _ H1) | exact H2].
    + intros [H1 H2]. split; [apply dedup_loop_complete; [exact H1 | intros []] | exact H2].
Qed.

(** ** String helpers *)

Import Text Json Faculty Faculty2 Email2.

Lemma lower_char_space (c : ascii) : is_space c = true -> lower_char c = c.
Proof.
  destruct c as [[] [] [] [] [] [] [] []]; vm_compute; intros H;
    first [reflexivity | discriminate H].
Qed.

Lemma lower_char_space_iff (c : ascii) : is_space (lower_char c) = is_space c.
Proof.
  destruct c as [[] [] [] [] [] [] [] []]; vm_compute; reflexivity.
Qed.

Lemma lower_is_space (x : list ascii) :
  forallb is_space (lower x) = forallb is_space x.
Proof.
  induction x as [|c x IH]; simpl; [reflexivity|].
  rewrite lower_char_space_iff, IH. reflexivity.
Qed.

Lemma words_aux_spaces (cur x : list ascii) :
  forallb is_space x = true ->
  words_aux cur x = match cur with [] => [] | _ => [rev cur] end.
Proof.
  revert cur. induction x as [|c x IH]; intros cur H; simpl in *; [reflexivity|].
  apply andb_true_iff in H as [Hc H]. rewrite Hc.
  destruct cur; rewrite (IH [] H); reflexivity.
Qed.

Lemma lookup_dict_set_eq (k : string) (v : json) (kv : list (string * json)) :
  lookup k (dict_set k v kv) = Some v.
Proof.
  induction kv as [|[k' v'] kv IH]; simpl.
  - rewrite String.eqb_refl. reflexivity.
  - destruct (String.eqb_spec k k') as [->|Hne]; simpl.
    + rewrite String.eqb_refl. reflexivity.
    + apply String.eqb_neq in Hne. rewrite Hne. exact IH.
Qed.

Lemma lookup_dict_set_neq (k k' : string) (v : json) (kv : list (string * json)) :
  k' <> k -> lookup k' (dict_set k v kv) = lookup k' kv.
Proof.
  intros Hne. induction kv as [|[k0 v0] kv IH]; simpl.
  - apply String.eqb_neq in Hne. rewrite Hne. reflexivity.
  - destruct (String.eqb_spec k k0) as [->|Hk]; simpl.
    + apply String.eqb_neq in Hne. rewrite Hne. reflexivity.
    + destruct (String.eqb k' k0); [reflexivity | exact IH].
Qed.

Lemma prefixb_app (n x : list ascii) : prefixb n (n ++ x) = true.
Proof.
  induction n as [|c n IH]; simpl; [reflexivity|].
  rewrite Ascii.eqb_refl. exact IH.
Qed.

Lemma replace_space_plus_no_space (x : list ascii) : ~ In " "%char (replace_space_plus x).
Proof.
  unfold replace_space_plus. intros H. apply in_map_iff in H as (y & Hy & _).
  destruct (Ascii.eqb y " "%char) eqn:E; [discriminate|].
  subst y. rewrite Ascii.eqb_refl in E. discriminate.
Qed.

Lemma runs_count_prefix_digits (x r g : list ascii) :
  In (r, Some g) (runs count_prefix x None) -> forallb is_digit g = true.
Proof.
  apply runs_capture_digits; [|discriminate].
  intros f [Hf|[Hf|[]]]; [injection Hf as <-; auto | discriminate].
Qed.

Lemma ci_no_group (w : string) (f : ascii -> bool) : ~ In (Group f) (ci w).
Proof.
  unfold ci. intros H. apply in_map_iff in H as (c & Hc & _). discriminate.
Qed.

Lemma match_at_alt_digits (x g : list ascii) :
  match_at_alt count_prefix count_words x = Some (Some g) -> forallb is_digit g = true.
Proof.
  unfold match_at_alt.
  destruct (flat_map (fun '(x', c) => flat_map (fun a => runs a x' c) count_words)
                     (runs count_prefix x None)) as [|[r cap] tl] eqn:Hr; [discriminate|].
  intros H. injection H as ->.
  assert (Hin : In (r, Some g) (flat_map (fun '(x', c) => flat_map (fun a => runs a x' c) count_words)
                                         (runs count_prefix x None)))
    by (rewrite Hr; left; reflexivity).
  apply in_flat_map in Hin as ([x' c] & Hpre & Hin).
  apply in_flat_map in Hin as (a & Ha & Hin).
  apply (runs_capture_digits a x' c r g); [| |exact Hin].
  - intros f Hf. simpl in Ha. exfalso.
    repeat (destruct Ha as [<-|Ha]; [exact (ci_no_group _ f Hf)|]). exact Ha.
  - intros d ->. exact (runs_count_prefix_digits _ _ _ Hpre).
Qed.

Lemma search_alt_unfold (pre : pattern) (alts : list pattern) (x : list ascii) :
  search_alt pre alts x =
  match match_at_alt pre alts x with
  | Some c => Some c
  | None => match x with [] => None | _ :: x' => search_alt pre alts x' end
  end.
Proof. destruct x; reflexivity. Qed.

Lemma search_alt_digits (x g : list ascii) :
  search_alt count_prefix count_words x = Some (Some g) -> forallb is_digit g = true.
Proof.
  induction x as [|y x IH]; rewrite search_alt_unfold;
    destruct (match_at_alt count_prefix count_words _) as [c|] eqn:H.
  - intros E. injection E as ->. exact (match_at_alt_digits _ _ H).
  - discriminate.
  - intros E. injection E as ->. exact (match_at_alt_digits _ _ H).
  - exact IH.
Qed.

Lemma search_alt_no_digit (x : list ascii) :
  forallb (fun c => negb (is_digit c)) x = true ->
  search_alt count_prefix count_words x = None.
Proof.
  induction x as [|y x IH]; intros H; simpl; unfold match_at_alt; simpl.
  - reflexivity.
  - simpl in H. apply andb_true_iff in H as [Hy H].
    apply Bool.negb_true_iff in Hy. rewrite Hy. simpl. exact (IH H).
Qed.

(** ** Faculty search helpers *)

(** [extract_faculty_count] returns [faculty_profiles[:count]] whatever the
    criteria (a non-negative count keeps that many profiles from the front,
    a negative one drops that many from the end), with no tokens and no
    cost. *)
Theorem extract_faculty_count_spec {A} (faculty_profiles : list A) (count : Z)
        (criteria : option string) :
  extract_faculty_count faculty_profiles count criteria =
  ((if (0 <=? count)%Z then firstn (Z.to_nat count) faculty_profiles
    else firstn (List.length faculty_profiles - Z.to_nat (- count)) faculty_profiles),
   0%Z, 0%Z).
Proof.
  unfold extract_faculty_count, slice_to.
  destruct (Z.leb_spec (Z.of_nat (List.length faculty_profiles)) count) as [Hle|Hgt].
  - destruct (Z.leb_spec 0 count) as [_|Hneg]; [|lia].
    rewrite firstn_all2; [reflexivity | lia].
  - assert (Hs : (if (0 <=? count)%Z then firstn (Z.to_nat count) faculty_profiles
                  else firstn (Z.to_nat (Z.of_nat (List.length faculty_profiles) + count))
                              faculty_profiles)
                 = (if (0 <=? count)%Z then firstn (Z.to_nat count) faculty_profiles
                    else firstn (List.length faculty_profiles - Z.to_nat (- count))
                                faculty_profiles)).
    { destruct (Z.leb_spec 0 count); [reflexivity|]. f_equal. lia. }
    destruct criteria as [c|]; [destruct (String.eqb c "")|]; rewrite Hs; reflexivity.
Qed.

(** The faculty count parsed from a prompt is never negative. *)
Theorem parse_faculty_count_nonneg (prompt : string) : (0 <= parse_faculty_count prompt)%Z.
Proof.
  unfold parse_faculty_count.
  destruct (search_alt count_prefix count_words (list_ascii_of_string prompt)) as [[g|]|] eqn:H;
    [|lia|lia].
  apply digits_value_nonneg_aux; [lia|]. exact (search_alt_digits _ _ H).
Qed.

(** A prompt without any digit asks for the default of 5 profiles. *)
Theorem parse_faculty_count_default (prompt : string) :
  forallb (fun c => negb (is_digit c)) (list_ascii_of_string prompt) = true ->
  parse_faculty_count prompt = 5%Z.
Proof.
  intros H. unfold parse_faculty_count. rewrite (search_alt_no_digit _ H). reflexivity.
Qed.

Lemma parse_faculty_count_default_witness :
  forallb (fun c => negb (is_digit c)) (list_ascii_of_string "find some professors") = true
  /\ parse_faculty_count "find some professors" = 5%Z.
Proof.
  split; [reflexivity|]. apply parse_faculty_count_default. reflexivity.
Defined.

(** [generate_search_urls] returns two Google search URLs, and neither
    contains a space. *)
Theorem generate_search_urls_shape (university_name : string) (count : Z) :
  List.length (generate_search_urls university_name count) = 2%nat /\
  (forall u, In u (generate_search_urls university_name count) ->
   prefixb (Text.s "https://www.google.com/search?q=") (list_ascii_of_string u) = true /\
   ~ In " "%char (list_ascii_of_string u)).
Proof.
  split; [reflexivity|].
  intros u Hu. unfold generate_search_urls in Hu.
  destruct Hu as [<-|[<-|[]]]; rewrite list_ascii_of_string_of_list_ascii;
    (split; [apply prefixb_app|]);
    intros H; apply in_app_or in H as [H|H];
    try (apply in_app_or in H as [H|H]; [exact (replace_space_plus_no_space _ H)|]);
    vm_compute in H; repeat (destruct H as [H|H]; [discriminate|]); exact H.
Qed.

(** A non-empty prompt made only of whitespace has no keyword, so
    [search_faculty_by_prompt] drops every profile (while the empty prompt
    keeps them all). *)
Theorem search_faculty_by_prompt_blank (dumps : list (string * json) -> string)
        (faculty_profiles : list (list (string * json))) (prompt : string) :
  prompt <> ""%string ->
  forallb is_space (list_ascii_of_string prompt) = true ->
  search_faculty_by_prompt dumps faculty_profiles prompt = [].
Proof.
  intros Hne Hsp. unfold search_faculty_by_prompt.
  apply String.eqb_neq in Hne. rewrite Hne.
  destruct faculty_profiles as [|p ps]; [reflexivity|].
  unfold split_ws. rewrite words_aux_spaces.
  - simpl. clear p. induction ps as [|q ps IH]; simpl; [reflexivity | exact IH].
  - rewrite lower_is_space. exact Hsp.
Qed.

Lemma search_faculty_by_prompt_blank_witness :
  search_faculty_by_prompt (fun _ => "{}"%string) [[("name"%string, JStr "Ada")]] " " = [].
Proof. apply search_faculty_by_prompt_blank; [discriminate | reflexivity]. Defined.

Lemma flat_map_select {A B} (b : A -> bool) (h : A -> B) (l : list A) :
  (List.length (flat_map (fun x => if b x then [h x] else []) l) <= List.length l)%nat /\
  (forall y, In y (flat_map (fun x => if b x then [h x] else []) l) ->
             exists x, In x l /\ y = h x).
Proof.
  induction l as [|x l [IHlen IHin]]; simpl.
  - split; [lia | intros y []].
  - split.
    + destruct (b x); simpl; lia.
    + intros y Hy. destruct (b x); simpl in Hy.
      * destruct Hy as [<-|Hy]; [exists x; auto|].
        destruct (IHin y Hy) as (x' & Hx' & ->). exists x'. auto.
      * destruct (IHin y Hy) as (x' & Hx' & ->). exists x'. auto.
Qed.

(** For a non-empty prompt, [search_faculty_by_prompt] returns at most as
    many profiles as it is given; each one is a copy of an input profile
    with the same fields, plus a [match_reason] quoting the lower-cased
    prompt. *)
Theorem search_faculty_by_prompt_marks (dumps : list (string * json) -> string)
        (faculty_profiles : list (list (string * json))) (prompt : string) :
  prompt <> ""%string ->
  (List.length (search_faculty_by_prompt dumps faculty_profiles prompt)
   <= List.length faculty_profiles)%nat /\
  (forall q, In q (search_faculty_by_prompt dumps faculty_profiles prompt) ->
   exists p, In p faculty_profiles /\
     lookup "match_reason" q = Some (match_reason (lower (list_ascii_of_string prompt))) /\
     (forall k, k <> "match_reason"%string -> lookup k q = lookup k p)).
Proof.
  intros Hne. unfold search_faculty_by_prompt.
  apply String.eqb_neq in Hne. rewrite Hne.
  destruct faculty_profiles as [|p0 ps]; [split; [simpl; lia | intros q []]|].
  destruct (flat_map_select
              (fun profile => existsb (fun keyword => contains keyword
                                 (lower (list_ascii_of_string (dumps profile))))
                                 (split_ws (lower (list_ascii_of_string prompt))))
              (dict_set "match_reason" (match_reason (lower (list_ascii_of_string prompt))))
              (p0 :: ps)) as [Hlen Hin].
  split; [exact Hlen|].
  intros q Hq. destruct (Hin q Hq) as (p & Hp & ->).
  exists p. split; [exact Hp|]. split; [apply lookup_dict_set_eq|].
  intros k Hk. apply lookup_dict_set_neq. exact Hk.
Qed.

Lemma search_faculty_by_prompt_marks_witness :
  (List.length (search_faculty_by_prompt (fun _ => "name Ada"%string)
                  [[("name"%string, JStr "Ada")]] "ada") <= 1)%nat.
Proof.
  apply (search_faculty_by_prompt_marks (fun _ => "name Ada"%string)
           [[("name"%string, JStr "Ada")]] "ada"). discriminate.
Defined.

(** ** [extract_and_add_emails] *)

Import Scraper.

Lemma valid_email_usable (e : string) :
  _is_valid_email e = true -> truthy (JStr e) = true /\ JStr e <> JStr "N/A".
Proof.
  intros H. split.
  - simpl. destruct (String.eqb_spec e "") as [->|Hne]; [discriminate | reflexivity].
  - intros E. injection E as ->. discriminate.
Qed.

Lemma fill_listing_usable (e0 : string) (rest : list string) (l : json) (lkv : list (string * json)) :
  _is_valid_email e0 = true ->
  fill_listing (e0 :: rest) l = JObj lkv ->
  exists v, lookup "email" lkv = Some v /\ truthy v = true /\ v <> JStr "N/A".
Proof.
  intros Hv Hf. destruct (valid_email_usable e0 Hv) as [Ht Hna].
  destruct l as [| | | |ls|kv]; simpl in Hf; try discriminate.
  destruct (lookup "email" kv) as [v|] eqn:Hl.
  - destruct (truthy v && negb (match v with JStr w => String.eqb w "N/A" | _ => false end)) eqn:Hu.
    + injection Hf as <-. exists v. split; [exact Hl|].
      apply andb_true_iff in Hu as [Hu1 Hu2]. split; [exact Hu1|].
      intros ->. discriminate.
    + injection Hf as <-. exists (JStr e0). split; [apply lookup_dict_set_eq | auto].
  - injection Hf as <-. exists (JStr e0). split; [apply lookup_dict_set_eq | auto].
Qed.

(** When emails were found and the data holds a [listings] array, every
    dict among the listings afterwards has a usable email (present, truthy
    and not ["N/A"]); the number of listings and every other top-level key
    are unchanged.  The first found email is a validated one. *)
Theorem add_emails_fills_listings (e0 : string) (rest : list string)
        (kv : list (string * json)) (ls : list json) :
  _is_valid_email e0 = true ->
  lookup "listings" kv = Some (JArr ls) ->
  exists kv' ls',
    add_emails_to_parsed (e0 :: rest) (JObj kv) = Some (JObj kv') /\
    lookup "listings" kv' = Some (JArr ls') /\
    List.length ls' = List.length ls /\
    (forall k, k <> "listings"%string -> lookup k kv' = lookup k kv) /\
    (forall lkv, In (JObj lkv) ls' ->
       exists v, lookup "email" lkv = Some v /\ truthy v = true /\ v <> JStr "N/A").
Proof.
  intros Hv Hl. exists (dict_set "listings" (JArr (map (fill_listing (e0 :: rest)) ls)) kv),
                       (map (fill_listing (e0 :: rest)) ls).
  split; [simpl; rewrite Hl; reflexivity|].
  split; [apply lookup_dict_set_eq|].
  split; [apply length_map|].
  split; [intros k Hk; apply lookup_dict_set_neq; exact Hk|].
  intros lkv Hin. apply in_map_iff in Hin as (l & Hf & _).
  exact (fill_listing_usable e0 rest l lkv Hv Hf).
Qed.

Lemma add_emails_fills_listings_witness :
  exists kv' ls',
    add_emails_to_parsed ["jane@uni.edu"%string]
      (JObj [("listings"%string, JArr [JObj [("email"%string, JStr "N/A")]])]) = Some (JObj kv') /\
    lookup "listings" kv' = Some (JArr ls') /\
    List.length ls' = List.length [JObj [("email"%string, JStr "N/A")]] /\
    (forall k, k <> "listings"%string ->
       lookup k kv' = lookup k [("listings"%string, JArr [JObj [("email"%string, JStr "N/A")]])]) /\
    (forall lkv, In (JObj lkv) ls' ->
       exists v, lookup "email" lkv = Some v /\ truthy v = true /\ v <> JStr "N/A").
Proof.
  apply (add_emails_fills_listings "jane@uni.edu" [] [("listings"%string, JArr [JObj [("email"%string, JStr "N/A")]])]
           [JObj [("email"%string, JStr "N/A")]]); reflexivity.
Defined.

(** The listing update never touches a non-dict listing or a listing that
    already has a usable email, and it changes no field but [email]. *)
Theorem fill_listing_preserves (extracted_emails : list string) (l : json) :
  match l, fill_listing extracted_emails l with
  | JObj kv, JObj kv' =>
      (forall k, k <> "email"%string -> lookup k kv' = lookup k kv) /\
      (forall v, lookup "email" kv = Some v -> truthy v = true -> v <> JStr "N/A" -> kv' = kv)
  | _, l' => l' = l
  end.
Proof.
  destruct l as [| | | |ls|kv]; try reflexivity. simpl.
  destruct (lookup "email" kv) as [v|] eqn:Hl.
  - destruct (truthy v && negb (match v with JStr w => String.eqb w "N/A" | _ => false end)) eqn:Hu.
    + split; [reflexivity|]. reflexivity.
    + split; [intros k Hk; apply lookup_dict_set_neq; exact Hk|].
      intros v' E Ht Hna. injection E as <-. rewrite Ht in Hu. simpl in Hu.
      exfalso. destruct v as [| | |w| |]; try discriminate.
      apply Bool.negb_false_iff, String.eqb_eq in Hu. subst w. apply Hna. reflexivity.
  - split; [intros k Hk; apply lookup_dict_set_neq; exact Hk|].
    intros v E. discriminate.
Qed.

(** The only failure of the listing update is Python's [TypeError]: emails
    were found, the data is a dict, and its [listings] value is [null], a
    boolean or a number. *)
Theorem add_emails_type_error (extracted_emails : list string) (parsed_data : json) :
  add_emails_to_parsed extracted_emails parsed_data = None <->
  extracted_emails <> [] /\
  exists kv j, parsed_data = JObj kv /\ lookup "listings" kv = Some j /\
               match j with JNull | JBool _ | JNum _ => True | _ => False end.
Proof.
  unfold add_emails_to_parsed. split.
  - destruct extracted_emails as [|e0 rest]; [discriminate|].
    destruct parsed_data as [| | | | |kv]; try discriminate.
    intros H. split; [discriminate|]. exists kv.
    destruct (lookup "listings" kv) as [j|]; [|discriminate].
    exists j. split; [reflexivity|]. split; [reflexivity|].
    destruct j; try discriminate; exact I.
  - intros [Hne (kv & j & -> & Hl & Hj)].
    destruct extracted_emails as [|e0 rest]; [contradiction|].
    rewrite Hl. destruct j; try contradiction; reflexivity.
Qed.

(** ** The prompt of [paginate_urls] *)

Lemma lstrip_keeps (x : list ascii) (c : ascii) :
  In c x -> is_space c = false -> In c (lstrip x).
Proof.
  induction x as [|y x IH]; intros H Hc; simpl; [contradiction|].
  destruct (is_space y) eqn:Hy.
  - destruct H as [<-|H]; [congruence | exact (IH H Hc)].
  - exact H.
Qed.

Lemma strip_keeps (x : list ascii) (c : ascii) :
  In c x -> is_space c = false -> In c (strip x).
Proof.
  intros H Hc. unfold strip. rewrite <- in_rev.
  apply lstrip_keeps; [|exact Hc]. rewrite <- in_rev.
  apply lstrip_keeps; assumption.
Qed.

Lemma strip_nonblank (pre info : list ascii) :
  In "E"%char info -> match strip (pre ++ info) with [] => true | _ => false end = false.
Proof.
  intros H. destruct (strip (pre ++ info)) eqn:E; [|reflexivity].
  exfalso. assert (Hin : In "E"%char (strip (pre ++ info))).
  { apply strip_keeps; [|reflexivity]. apply in_or_app. right. exact H. }
  rewrite E in Hin. exact Hin.
Qed.

Lemma info_E (st : Z) (en : option Z) : In "E"%char (pagination_range_info st en).
Proof. left. reflexivity. Qed.

(** [paginate_urls] always sends the user-indications form of the
    pagination prompt, and the range information ends its indications: the
    "No special user indications" branch is never taken. *)
Theorem paginate_prompt_indications (PROMPT_PAGINATION : list ascii) (urls : list string)
        (indication current_url : list ascii) (start_page : Z) (end_page : option Z) :
  exists before,
    paginate_prompt PROMPT_PAGINATION urls indication current_url start_page end_page =
    PROMPT_PAGINATION ++ newline :: Text.s "The page being analyzed is: " ++ current_url ++
    [newline] ++ Text.s "These are the user's indications. Pay attention:" ++ newline ::
    before ++ pagination_range_info (effective_start urls start_page) end_page ++ [newline; newline].
Proof.
  unfold paginate_prompt, full_indication, build_pagination_prompt.
  destruct (match strip indication with [] => true | _ => false end).
  - exists []. cbn [negb].
    pose proof (strip_nonblank [] _ (info_E (effective_start urls start_page) end_page)) as Hb.
    cbn [app] in Hb. rewrite Hb. reflexivity.
  - exists (indication ++ [newline]).
    cbn [negb].
    replace (indication ++ newline :: pagination_range_info (effective_start urls start_page) end_page)
      with ((indication ++ [newline]) ++ pagination_range_info (effective_start urls start_page) end_page)
      by (rewrite <- app_assoc; reflexivity).
    rewrite (strip_nonblank _ _ (info_E _ _)).
    repeat rewrite <- app_assoc. reflexivity.
Qed.

(** ** Email strategies of [email_extractor.py] *)

Lemma cut_unfold (sep x : list ascii) :
  cut sep x =
  if prefixb sep x then Some ([], skipn (List.length sep) x)
  else match x with
       | [] => None
       | c :: x' => match cut sep x' with Some (b, a) => Some (c :: b, a) | None => None end
       end.
Proof. destruct x; reflexivity. Qed.

Lemma contains_unfold (n x : list ascii) :
  contains n x = prefixb n x || match x with [] => false | _ :: x' => contains n x' end.
Proof. destruct x; reflexivity. Qed.

Lemma cut_single_none (q : ascii) (x : list ascii) : cut [q] x = None -> ~ In q x.
Proof.
  induction x as [|y x IH]; intros H; [intros []|].
  rewrite cut_unfold in H. cbn [prefixb] in H. rewrite andb_true_r in H.
  destruct (Ascii.eqb_spec q y) as [->|Hne]; [discriminate|].
  destruct (cut [q] x) as [[b a]|]; [discriminate|].
  intros [E|Hin]; [congruence | exact (IH eq_refl Hin)].
Qed.

Lemma cut_single_some (q : ascii) (x b a : list ascii) : cut [q] x = Some (b, a) -> ~ In q b.
Proof.
  revert b a. induction x as [|y x IH]; intros b a H; [discriminate|].
  rewrite cut_unfold in H. cbn [prefixb] in H. rewrite andb_true_r in H.
  destruct (Ascii.eqb_spec q y) as [->|Hne].
  - injection H as <- _. intros [].
  - destruct (cut [q] x) as [[b' a']|] eqn:Hc; [|discriminate].
    injection H as <- <-. intros [E|Hin]; [congruence | exact (IH _ _ eq_refl Hin)].
Qed.

Lemma split_first_single (q : ascii) (x : list ascii) : ~ In q (split_first [q] x).
Proof.
  unfold split_first. destruct (cut [q] x) as [[b a]|] eqn:Hc.
  - exact (cut_single_some _ _ _ _ Hc).
  - exact (cut_single_none _ _ Hc).
Qed.

Lemma lstrip_incl (x : list ascii) (c : ascii) : In c (lstrip x) -> In c x.
Proof.
  induction x as [|y x IH]; simpl; [tauto|].
  destruct (is_space y); [intros H; right; exact (IH H) | tauto].
Qed.

Lemma strip_incl (x : list ascii) (c : ascii) : In c (strip x) -> In c x.
Proof.
  unfold strip. rewrite <- in_rev. intros H. apply lstrip_incl in H.
  rewrite <- in_rev in H. exact (lstrip_incl _ _ H).
Qed.

(** Every address [_extract_emails_from_mailto] returns is non-empty and
    free of [?], and each link gives at most one address. *)
Theorem mailto_emails_clean (hrefs : list string) :
  (List.length (mailto_emails hrefs) <= List.length hrefs)%nat /\
  (forall e, In e (mailto_emails hrefs) ->
   list_ascii_of_string e <> [] /\ ~ In "?"%char (list_ascii_of_string e)).
Proof.
  induction hrefs as [|href hrefs [IHlen IHin]]; [split; [simpl; lia | intros e []]|].
  unfold mailto_emails in *. cbn [flat_map]. cbv zeta in *.
  assert (Hone : forall h : list ascii,
            (List.length (if contains (Text.s "mailto:") h then
               match split_second (Text.s "mailto:") h with
               | Some m => match strip (split_first (Text.s "?") m) with
                           | [] => [] | e => [string_of_list_ascii e] end
               | None => [] end else []) <= 1)%nat /\
            (forall e, In e (if contains (Text.s "mailto:") h then
               match split_second (Text.s "mailto:") h with
               | Some m => match strip (split_first (Text.s "?") m) with
                           | [] => [] | e => [string_of_list_ascii e] end
               | None => [] end else []) ->
             list_ascii_of_string e <> [] /\ ~ In "?"%char (list_ascii_of_string e))).
  { intros h. destruct (contains (Text.s "mailto:") h); [|split; [simpl; lia | intros e []]].
    destruct (split_second (Text.s "mailto:") h) as [m|]; [|split; [simpl; lia | intros e []]].
    destruct (strip (split_first (Text.s "?") m)) as [|c l] eqn:Es;
      [split; [simpl; lia | intros e []]|].
    split; [simpl; lia|]. intros e [<-|[]].
    rewrite list_ascii_of_string_of_list_ascii. split; [discriminate|].
    rewrite <- Es. intros H. apply strip_incl in H. exact (split_first_single "?"%char m H). }
  destruct (Hone (list_ascii_of_string href)) as [H1 H2].
  split.
  - rewrite length_app. cbn [List.length]. lia.
  - intros e He. apply in_app_or in He as [He|He]; [exact (H2 e He) | exact (IHin e He)].
Qed.

Lemma skipn_length_app (n x : list ascii) : skipn (List.length n) (n ++ x) = x.
Proof. induction n as [|c n IH]; [reflexivity | exact IH]. Qed.

Lemma cut_not_contains (sep x : list ascii) : contains sep x = false -> cut sep x = None.
Proof.
  induction x as [|y x IH]; intros H; rewrite contains_unfold in H; rewrite cut_unfold;
    apply orb_false_iff in H as [H1 H2]; rewrite H1; [reflexivity|].
  rewrite (IH H2). reflexivity.
Qed.

Lemma cut_single_found (q : ascii) (addr query : list ascii) :
  ~ In q addr -> cut [q] (addr ++ q :: query) = Some (addr, query).
Proof.
  induction addr as [|y addr IH]; intros Hq; rewrite cut_unfold; cbn [app prefixb];
    rewrite andb_true_r.
  - rewrite Ascii.eqb_refl. reflexivity.
  - destruct (Ascii.eqb_spec q y) as [->|Hne]; [exfalso; apply Hq; left; reflexivity|].
    rewrite IH; [reflexivity|]. intros H. apply Hq. right. exact H.
Qed.

Lemma cut_single_absent (q : ascii) (x : list ascii) : ~ In q x -> cut [q] x = None.
Proof.
  induction x as [|y x IH]; intros Hq; rewrite cut_unfold; cbn [prefixb]; [reflexivity|].
  rewrite andb_true_r. destruct (Ascii.eqb_spec q y) as [->|Hne]; [exfalso; apply Hq; left; reflexivity|].
  rewrite IH; [reflexivity|]. intros H. apply Hq. right. exact H.
Qed.

(** Round trip: a [mailto:] link made of an address (already stripped, with
    no [?]) and an optional query gives back exactly that address. *)
Theorem mailto_emails_round_trip (addr tail : list ascii) :
  ~ In "?"%char addr ->
  (tail = [] \/ exists query, tail = "?"%char :: query) ->
  contains (Text.s "mailto:") (addr ++ tail) = false ->
  strip addr = addr ->
  addr <> [] ->
  mailto_emails [string_of_list_ascii (Text.s "mailto:" ++ addr ++ tail)]
  = [string_of_list_ascii addr].
Proof.
  intros Hq Ht Hc Hs Hne. unfold mailto_emails. cbn [flat_map].
  rewrite list_ascii_of_string_of_list_ascii, app_nil_r.
  rewrite contains_unfold, prefixb_app. cbn [orb].
  unfold split_second. rewrite cut_unfold, prefixb_app, skipn_length_app.
  unfold split_first at 2. rewrite (cut_not_contains _ _ Hc).
  assert (Hf : split_first (Text.s "?") (addr ++ tail) = addr).
  { unfold split_first. destruct Ht as [->|[query ->]].
    - rewrite app_nil_r. change (Text.s "?") with ["?"%char].
      rewrite (cut_single_absent _ _ Hq). reflexivity.
    - change (Text.s "?") with ["?"%char]. rewrite (cut_single_found _ _ _ Hq). reflexivity. }
  rewrite Hf, Hs. destruct addr as [|c l]; [contradiction | reflexivity].
Qed.

Lemma mailto_emails_round_trip_witness :
  mailto_emails [string_of_list_ascii (Text.s "mailto:" ++ Text.s "jane.doe@uni.edu" ++ Text.s "?subject=Hi")]
  = [string_of_list_ascii (Text.s "jane.doe@uni.edu")].
Proof.
  apply mailto_emails_round_trip.
  - intros H. vm_compute in H. repeat (destruct H as [H|H]; [discriminate|]). exact H.
  - right. exists (Text.s "subject=Hi"). reflexivity.
  - vm_compute. reflexivity.
  - vm_compute. reflexivity.
  - discriminate.
Defined.

Lemma spans_split (f : ascii -> bool) (x t r : list ascii) :
  In (t, r) (spans f x) -> x = t ++ r.
Proof.
  revert t r. induction x as [|c x IH]; intros t r H; simpl in H; [contradiction|].
  destruct (f c); [|contradiction].
  apply in_app_or in H as [H|[H|[]]].
  - apply in_map_iff in H as ([t' r'] & Heq & Hin). injection Heq as <- <-.
    simpl. f_equal. exact (IH _ _ Hin).
  - injection H as <- <-. reflexivity.
Qed.

(** A match consumes a prefix of the input whose characters satisfy [P]
    when every item of the pattern only accepts such characters. *)
Lemma runs_consumes (P : ascii -> bool) (p : pattern) (x : list ascii) cap r c :
  (forall it, In it p ->
     match it with
     | Chr d | OptChr d => P d = true
     | Cls f | Plus f | Group f => forall d, f d = true -> P d = true
     | Eol => True
     end) ->
  In (r, c) (runs p x cap) -> exists t, x = t ++ r /\ forallb P t = true.
Proof.
  revert x cap. induction p as [|it p IH]; intros x cap Hp H; simpl in H.
  - destruct H as [H|[]]. injection H as <- _. exists []. auto.
  - apply in_flat_map in H as ([x' c'] & Hstep & Hin).
    destruct (IH x' _ (fun it' Hit' => Hp it' (or_intror Hit')) Hin) as (t2 & -> & Ht2).
    assert (Hit := Hp it (or_introl eq_refl)).
    assert (Hall : forall f t r', (forall d, f d = true -> P d = true) ->
                     In (t, r') (spans f x) -> x = t ++ r' /\ forallb P t = true).
    { intros f t r' Hf Hs. split; [exact (spans_split _ _ _ _ Hs)|].
      apply forallb_forall. intros d Hd. apply Hf.
      exact (proj1 (forallb_forall _ _) (spans_class _ _ _ _ Hs) d Hd). }
    destruct it as [d|f|d|f|f|]; simpl in Hstep.
    + destruct x as [|y x]; [contradiction|].
      destruct (Ascii.eqb_spec y d) as [->|]; simpl in Hstep; [|contradiction].
      destruct Hstep as [Hs|[]]. injection Hs as E1 E2. subst.
      exists (d :: t2). split; [reflexivity|]. simpl. rewrite Hit, Ht2. reflexivity.
    + destruct x as [|y x]; [contradiction|].
      destruct (f y) eqn:Fy; simpl in Hstep; [|contradiction].
      destruct Hstep as [Hs|[]]. injection Hs as E1 E2. subst.
      exists (y :: t2). split; [reflexivity|]. simpl. rewrite (Hit y Fy), Ht2. reflexivity.
    + destruct x as [|y x]; simpl in Hstep.
      * destruct Hstep as [Hs|[]]. injection Hs as E1 E2. subst. exists t2. auto.
      * destruct (Ascii.eqb_spec y d) as [->|]; simpl in Hstep.
        -- destruct Hstep as [Hs|[Hs|[]]]; injection Hs as E1 E2. subst.
           ++ exists (d :: t2). split; [reflexivity|]. simpl. rewrite Hit, Ht2. reflexivity.
           ++ exists t2. auto.
        -- destruct Hstep as [Hs|[]]. injection Hs as E1 E2. subst. exists t2. auto.
    + apply in_map_iff in Hstep as ([t1 r1] & Heq & Hs). injection Heq as E _. subst r1.
      destruct (Hall f t1 _ Hit Hs) as [-> Ht1].
      exists (t1 ++ t2). split; [apply app_assoc|]. rewrite forallb_app, Ht1, Ht2. reflexivity.
    + apply in_map_iff in Hstep as ([t1 r1] & Heq & Hs). injection Heq as E _. subst r1.
      destruct (Hall f t1 _ Hit Hs) as [-> Ht1].
      exists (t1 ++ t2). split; [apply app_assoc|]. rewrite forallb_app, Ht1, Ht2. reflexivity.
    + destruct (at_eol x); simpl in Hstep; [|contradiction].
      destruct Hstep as [Hs|[]]. injection Hs as E1 E2. subst. exists t2. auto.
Qed.

Lemma match_text_run (p : pattern) (x m : list ascii) :
  match_text p x = Some m -> exists r c, In (r, c) (runs p x None) /\ x = m ++ r.
Proof.
  unfold match_text. destruct (runs p x None) as [|[r c] tl] eqn:Hr; [discriminate|].
  intros H. injection H as <-. exists r, c.
  assert (Hin : In (r, c) (runs p x None)) by (rewrite Hr; left; reflexivity).
  split; [left; reflexivity|].
  destruct (runs_consumes (fun _ => true) p x None r c) as (t & -> & _); [|exact Hin|].
  - intros [] _; auto.
  - rewrite length_app, Nat.add_sub, firstn_app, Nat.sub_diag, firstn_all. simpl.
    rewrite app_nil_r. reflexivity.
Qed.

Lemma search_text_run (p : pattern) (x m : list ascii) :
  search_text p x = Some m ->
  exists pre r c, x = pre ++ m ++ r /\ In (r, c) (runs p (m ++ r) None).
Proof.
  induction x as [|y x IH]; simpl; destruct (match_text p _) as [t|] eqn:Hm.
  - intros H. injection H as <-. apply match_text_run in Hm as (r & c & Hin & E).
    exists [], r, c. rewrite <- E. auto.
  - discriminate.
  - intros H. injection H as <-. apply match_text_run in Hm as (r & c & Hin & E).
    exists [], r, c. rewrite <- E. auto.
  - intros H. destruct (IH H) as (pre & r & c & -> & Hin). exists (y :: pre), r, c. auto.
Qed.

Lemma runs_chr (a b : ascii) (p : pattern) (x : list ascii) cap :
  runs (Chr a :: p) (b :: x) cap = if Ascii.eqb b a then runs p x cap else [].
Proof. simpl. destruct (Ascii.eqb b a); simpl; [apply app_nil_r | reflexivity]. Qed.

Lemma lower_char_alpha (c : ascii) : is_alpha c = true -> is_lower_letter (lower_char c) = true.
Proof.
  destruct c as [[] [] [] [] [] [] [] []]; vm_compute; intros H;
    first [reflexivity | discriminate H].
Qed.

Lemma words_aux_chars (Q : ascii -> Prop) (cur x w : list ascii) :
  (forall c, In c cur -> Q c) ->
  (forall c, In c x -> is_space c = false -> Q c) ->
  In w (words_aux cur x) -> w <> [] /\ forall c, In c w -> Q c.
Proof.
  revert cur. induction x as [|y x IH]; intros cur Hcur Hx Hw; simpl in Hw.
  - destruct cur as [|a cur]; [contradiction|]. destruct Hw as [<-|[]].
    split; [intros E; apply (f_equal (@List.length ascii)) in E; rewrite length_rev in E; discriminate|].
    intros c Hc. apply Hcur. apply in_rev. exact Hc.
  - destruct (is_space y) eqn:Hy.
    + assert (Hrest : In w (words_aux [] x) -> w <> [] /\ forall c, In c w -> Q c).
      { apply IH; [intros c []|]. intros c Hc. apply Hx. right. exact Hc. }
      destruct cur as [|a cur]; [exact (Hrest Hw)|].
      destruct Hw as [<-|Hw]; [|exact (Hrest Hw)].
      split; [intros E; apply (f_equal (@List.length ascii)) in E; rewrite length_rev in E; discriminate|].
      intros c Hc. apply Hcur. apply in_rev. exact Hc.
    + apply (IH (y :: cur)); [| |exact Hw].
      * intros c [<-|Hc]; [apply Hx; [left; reflexivity | exact Hy] | exact (Hcur c Hc)].
      * intros c Hc. apply Hx. right. exact Hc.
Qed.

Lemma last_In {A} (l : list A) (d : A) : l <> [] -> In (last l d) l.
Proof.
  induction l as [|a l IH]; intros H; [contradiction|].
  destruct l as [|b l]; [left; reflexivity|].
  right. apply IH. discriminate.
Qed.

(** [_generate_academic_email_pattern] only proposes addresses
    [first.last@domain] where [first] and [last] are non-empty runs of
    lower-case ASCII letters and [domain] is a non-empty run of domain
    characters that follows an [@] in the page. *)
Theorem academic_email_shape (name html_content e : string) :
  _generate_academic_email_pattern name html_content = Some e ->
  exists first_name last_name domain,
    list_ascii_of_string e = first_name ++ "."%char :: last_name ++ "@"%char :: domain /\
    first_name <> [] /\ forallb is_lower_letter first_name = true /\
    last_name <> [] /\ forallb is_lower_letter last_name = true /\
    domain <> [] /\ forallb domain_char domain = true /\
    (exists pre post, list_ascii_of_string html_content = pre ++ "@"%char :: domain ++ post).
Proof.
  unfold _generate_academic_email_pattern.
  destruct (search_text at_domain_pattern (list_ascii_of_string html_content)) as [m|] eqn:Hs;
    [|discriminate].
  destruct (tl m) as [|d0 ds] eqn:Hd; [discriminate|].
  set (cleaned := lower (strip (filter (fun c => is_alpha c || is_space c)
                                       (list_ascii_of_string name)))).
  assert (Hcl : forall c, In c cleaned -> is_space c = false -> is_lower_letter c = true).
  { intros c Hc Hsp. unfold cleaned, lower in Hc. apply in_map_iff in Hc as (c0 & <- & Hc0).
    apply strip_incl in Hc0. apply filter_In in Hc0 as [_ Hc0].
    apply orb_true_iff in Hc0 as [Ha|Hsp0].
    - exact (lower_char_alpha _ Ha).
    - rewrite (lower_char_space _ Hsp0) in Hsp. congruence. }
  assert (Hw : forall w, In w (split_ws cleaned) ->
                 w <> [] /\ forall c, In c w -> is_lower_letter c = true).
  { intros w Hin. apply (words_aux_chars (fun c => is_lower_letter c = true) [] cleaned w);
      [intros c []| |exact Hin]. exact Hcl. }
  destruct (split_ws cleaned) as [|first_name [|w2 ws]] eqn:Hws; try discriminate.
  intros H. injection H as <-.
  apply search_text_run in Hs as (pre & r & c & Hx & Hrun).
  unfold at_domain_pattern in Hrun.
  destruct m as [|a m']; [discriminate|].
  cbn [app] in Hrun. rewrite runs_chr in Hrun.
  destruct (Ascii.eqb_spec a "@"%char) as [->|Hne]; [|contradiction].
  cbn [tl] in Hd. subst m'.
  destruct (runs_consumes domain_char
              [Plus domain_char; Chr "."; Cls is_alpha; Plus is_alpha]%char
              ((d0 :: ds) ++ r) None r c)
    as (t & Ht & Hdom); [| exact Hrun |].
  { intros it Hit. simpl in Hit.
    destruct Hit as [<-|[<-|[<-|[<-|[]]]]].
    - intros d Hd. exact Hd.
    - reflexivity.
    - intros d Hd. unfold domain_char. rewrite Hd. reflexivity.
    - intros d Hd. unfold domain_char. rewrite Hd. reflexivity. }
  apply app_inv_tail in Ht. subst t.
  exists first_name, (last (w2 :: ws) []), (d0 :: ds).
  rewrite list_ascii_of_string_of_list_ascii.
  destruct (Hw first_name (or_introl eq_refl)) as [Hf1 Hf2].
  destruct (Hw (last (w2 :: ws) []) (or_intror (last_In (w2 :: ws) [] ltac:(discriminate))))
    as [Hl1 Hl2].
  split; [reflexivity|].
  split; [exact Hf1|]. split; [apply forallb_forall; exact Hf2|].
  split; [exact Hl1|]. split; [apply forallb_forall; exact Hl2|].
  split; [discriminate|]. split; [exact Hdom|].
  exists pre, r. exact Hx.
Qed.

Lemma academic_email_shape_witness :
  exists first_name last_name domain,
    list_ascii_of_string "ada.lovelace@cs.uni.edu" =
      first_name ++ "."%char :: last_name ++ "@"%char :: domain /\
    first_name <> [] /\ forallb is_lower_letter first_name = true /\
    last_name <> [] /\ forallb is_lower_letter last_name = true /\
    domain <> [] /\ forallb domain_char domain = true /\
    (exists pre post, list_ascii_of_string "<p>Contact: office@cs.uni.edu</p>" =
                      pre ++ "@"%char :: domain ++ post).
Proof.
  apply (academic_email_shape "Ada Lovelace" "<p>Contact: office@cs.uni.edu</p>").
  vm_compute. reflexivity.
Defined.

Lemma words_aux_cur_nonempty (cur x : list ascii) : cur <> [] -> words_aux cur x <> [].
Proof.
  revert cur. induction x as [|y x IH]; intros cur Hc; simpl.
  - destruct cur; [contradiction | discriminate].
  - destruct (is_space y).
    + destruct cur; [contradiction | discriminate].
    + apply IH. discriminate.
Qed.

Lemma words_aux_nonempty (cur x : list ascii) (c : ascii) :
  In c x -> is_space c = false -> words_aux cur x <> [].
Proof.
  revert cur. induction x as [|y x IH]; intros cur Hin Hc; [contradiction|]. simpl.
  destruct (is_space y) eqn:Hy.
  - destruct Hin as [<-|Hin]; [congruence|].
    destruct cur; [exact (IH [] Hin Hc) | discriminate].
  - apply words_aux_cur_nonempty. discriminate.
Qed.

Lemma lstrip_head (x y : list ascii) (c : ascii) : lstrip x = c :: y -> is_space c = false.
Proof.
  induction x as [|a x IH]; simpl; [discriminate|].
  destruct (is_space a) eqn:Ha; [exact IH|]. intros E. injection E as <- _. exact Ha.
Qed.

Lemma strip_nonspace (x : list ascii) :
  strip x <> [] -> exists c, In c (strip x) /\ is_space c = false.
Proof.
  unfold strip. destruct (lstrip (rev (lstrip x))) as [|c y] eqn:E; [contradiction|].
  intros _. exists c. split; [apply in_rev; rewrite rev_involutive; left; reflexivity|].
  exact (lstrip_head _ _ _ E).
Qed.

Lemma words_aux_app (cur w y : list ascii) :
  forallb (fun c => negb (is_space c)) w = true ->
  words_aux cur (w ++ y) = words_aux (rev w ++ cur) y.
Proof.
  revert cur. induction w as [|c w IH]; intros cur Hw; [reflexivity|].
  simpl in Hw. apply andb_true_iff in Hw as [Hc Hw]. apply Bool.negb_true_iff in Hc.
  simpl. rewrite Hc, IH by exact Hw. rewrite <- app_assoc. reflexivity.
Qed.

Lemma split_ws_join (ws : list (list ascii)) :
  (forall w, In w ws -> w <> [] /\ forallb (fun c => negb (is_space c)) w = true) ->
  split_ws (join (Text.s " ") ws) = ws.
Proof.
  induction ws as [|w ws IH]; intros Hws; [reflexivity|].
  destruct (Hws w (or_introl eq_refl)) as [Hne Hw].
  assert (Hrw : rev w <> []).
  { intros E. apply Hne. rewrite <- (rev_involutive w), E. reflexivity. }
  destruct ws as [|w2 ws].
  - unfold split_ws. cbn [join].
    replace (words_aux [] w) with (words_aux [] (w ++ [])) by (rewrite app_nil_r; reflexivity).
    rewrite words_aux_app by exact Hw. rewrite app_nil_r. cbn [words_aux]. destruct (rev w) as [|a l] eqn:E; [contradiction|].
    rewrite <- E, rev_involutive. reflexivity.
  - change (join (Text.s " ") (w :: w2 :: ws)) with (w ++ Text.s " " ++ join (Text.s " ") (w2 :: ws)).
    unfold split_ws. rewrite words_aux_app by exact Hw. rewrite app_nil_r.
    cbn [Text.s list_ascii_of_string app words_aux].
    replace (is_space " "%char) with true by reflexivity.
    destruct (rev w) as [|a l] eqn:E; [contradiction|].
    rewrite <- E, rev_involutive. f_equal. apply IH.
    intros v Hv. apply Hws. right. exact Hv.
Qed.

(** A name found by [_extract_name_from_academic_page] has between one and
    five words. *)
Theorem academic_name_words (h1_texts : list string) (title : option string) (n : string) :
  _extract_name_from_academic_page h1_texts title = Some n ->
  (1 <= List.length (split_ws (list_ascii_of_string n)) <= 5)%nat.
Proof.
  unfold _extract_name_from_academic_page.
  destruct (find _ h1_texts) as [t|] eqn:Hf.
  - intros H. injection H as <-. rewrite list_ascii_of_string_of_list_ascii.
    apply find_some in Hf as [_ Hg].
    apply andb_true_iff in Hg as [Hg Hlen]. apply andb_true_iff in Hg as [_ Hnb].
    apply Nat.leb_le in Hlen. split; [|exact Hlen].
    destruct (strip (list_ascii_of_string t)) eqn:Es; [discriminate|].
    destruct (strip_nonspace (list_ascii_of_string t)) as (c & Hc & Hsp);
      [rewrite Es; discriminate|].
    rewrite Es in Hc.
    destruct (split_ws (a :: l)) eqn:Ew; [|simpl; lia].
    exfalso. exact (words_aux_nonempty [] (a :: l) c Hc Hsp Ew).
  - destruct title as [title_text|]; [|discriminate].
    destruct (contains (Text.s "profile") (lower (list_ascii_of_string title_text))); [|discriminate].
    set (parts := split_ws (strip (split_first (Text.s "|") (list_ascii_of_string title_text)))).
    destruct ((1 <? List.length parts)%nat && (List.length parts <=? 5)%nat) eqn:Hb;
      [|discriminate].
    intros H. injection H as <-. rewrite list_ascii_of_string_of_list_ascii.
    rewrite split_ws_join.
    + apply andb_true_iff in Hb as [H1 H2]. apply Nat.ltb_lt in H1. apply Nat.leb_le in H2. lia.
    + intros w Hw.
      destruct (words_aux_chars (fun c => is_space c = false) [] _ w (fun c H => match H with end)
                  (fun c _ H => H) Hw) as [Hne Hall].
      split; [exact Hne|]. apply forallb_forall. intros c Hc.
      apply Bool.negb_true_iff. exact (Hall c Hc).
Qed.

Lemma academic_name_words_witness :
  (1 <= List.length (split_ws (list_ascii_of_string "Ada Lovelace")) <= 5)%nat.
Proof.
  apply (academic_name_words ["Ada Lovelace"%string] None). reflexivity.
Defined.

End Extras.
